(** * hashi-ui: the Consul websocket connection (backend/consul_connection.go)

    A shallow embedding of [ConsulConnection]: the outbound delivery loop
    [writePump], the dispatcher [process], the shared watch
    [watchGenericBroadcast] and the two per-entity long-poll loops
    [watchConsulService] and [watchConsulNode].

    The connection is a record that is threaded through every operation.
    Go panics are an explicit result, [defer] and [recover] are combinators.
    Everything a goroutine cannot decide by itself comes from an oracle that
    is consumed one loop iteration at a time: what the Consul client
    returns, what the observed property publishes, and what the other
    goroutines of the connection (the read pump, the hub, sibling watches)
    did to the shared state in the meantime. *)

From Stdlib Require Import ZArith NArith List Lia.
From stdpp Require Import base gmap strings list.

Local Open Scope N_scope.
#[local] Set Warnings "-register-all".

(** ** Data model *)

(** Dynamic values ([interface{}]).  A payload decoded from JSON is nil, a
    bool, a float64 (kept as its 64-bit pattern), a string, an array or an
    object; values produced by the Consul client are carried in the same
    shape. *)
Inductive Payload : Type :=
| PNil
| PBool (b : bool)
| PNumber (bits : Z)
| PString (s : string)
| PArray (items : list Payload)
| PObject (fields : list (string * Payload)).

(** Modelled from the spec: the [Action] envelope is declared outside
    consul_connection.go; section 3 gives it as
    {Type: tag, Payload: variant data, Index: unsigned version marker}. *)
Record Action : Type := mkAction {
  Type' : string;
  Payload' : Payload;
  Index : N
}.

(** Modelled from the spec: the action type constants are declared outside
    consul_connection.go; the wire names are the ones of the table in
    section 6.  Only their being pairwise distinct matters below. *)
Module ActionType.
Definition fetchConsulRegions : string := "fetchRegions".
Definition fetchedConsulRegions : string := "fetchedRegions".
Definition watchConsulServices : string := "watchServices".
Definition unwatchConsulServices : string := "unwatchServices".
Definition fetchedConsulServices : string := "fetchedServices".
Definition watchConsulService : string := "watchService".
Definition unwatchConsulService : string := "unwatchService".
Definition fetchedConsulService : string := "fetchedService".
Definition watchConsulNodes : string := "watchNodes".
Definition unwatchConsulNodes : string := "unwatchNodes".
Definition fetchedConsulNodes : string := "fetchedNodes".
Definition watchConsulNode : string := "watchNode".
Definition unwatchConsulNode : string := "unwatchNode".
Definition fetchedConsulNode : string := "fetchedNode".
End ActionType.

(** [time.Duration] counts nanoseconds. *)
Definition Second : N := 1000000000.

(** [api.QueryOptions], the two fields the connection sets. *)
Record QueryOptions : Type := mkQueryOptions {
  WaitIndex : N;
  WaitTime : N
}.

(** What a panic carries. *)
Inductive PanicValue : Type :=
| SendOnClosedChannel
| InterfaceConversion (wanted : string).

Inductive Level : Type := LDebug | LInfo | LWarning | LError.

Inductive LogArg : Type :=
| ArgStr (s : string)
| ArgNum (n : N)
| ArgPanic (v : PanicValue).

Inductive Frame : Type :=
| JSONMessage (a : Action)
| CloseMessage.

Inductive EntityKind : Type := HealthService | HealthNode.

(** Goroutines started by [process]. *)
Inductive Goroutine : Type :=
| GoFetchRegions
| GoWatchGenericBroadcast (watchKey actionEvent : string) (initialPayload : Payload)
| GoWatchConsulService (action : Action)
| GoWatchConsulNode (action : Action).

(** Everything the connection does to the outside, in the order it does it. *)
Inductive Event : Type :=
| EvLog (lvl : Level) (format : string) (args : list LogArg)
| EvSleep (d : N)
| EvQuery (kind : EntityKind) (id : string) (q : QueryOptions)
| EvWrite (f : Frame) (err : option string)
| EvSocketClose.

(** The connection.  [send] is the outbound queue, as the list of actions
    put on the channel so far; [sendClosed] tells whether the channel has
    been closed; [destroyCh] tells whether a receive on the destroy channel
    would succeed. *)
Record ConsulConnection : Type := mkConn {
  shortID : string;
  watches : gset string;
  send : list Action;
  sendClosed : bool;
  destroyCh : bool;
  hubRegions : Payload;
  regionServices : Payload;
  regionNodes : Payload;
  trace : list Event
}.

Definition set_watches (w : gset string) (c : ConsulConnection) : ConsulConnection :=
  mkConn (shortID c) w (send c) (sendClosed c) (destroyCh c)
         (hubRegions c) (regionServices c) (regionNodes c) (trace c).

Definition set_send (q : list Action) (c : ConsulConnection) : ConsulConnection :=
  mkConn (shortID c) (watches c) q (sendClosed c) (destroyCh c)
         (hubRegions c) (regionServices c) (regionNodes c) (trace c).

Definition set_sendClosed (b : bool) (c : ConsulConnection) : ConsulConnection :=
  mkConn (shortID c) (watches c) (send c) b (destroyCh c)
         (hubRegions c) (regionServices c) (regionNodes c) (trace c).

Definition set_destroyCh (b : bool) (c : ConsulConnection) : ConsulConnection :=
  mkConn (shortID c) (watches c) (send c) (sendClosed c) b
         (hubRegions c) (regionServices c) (regionNodes c) (trace c).

Definition emit (e : Event) (c : ConsulConnection) : ConsulConnection :=
  mkConn (shortID c) (watches c) (send c) (sendClosed c) (destroyCh c)
         (hubRegions c) (regionServices c) (regionNodes c) (trace c ++ [e]).

(** ** The other goroutines *)

(** What the rest of the connection can do to the state a watch shares with
    it: [process] and sibling watches add and remove keys, the read pump
    clears the set on its way out, the hub closes the outbound queue, and
    [Handle] signals the destroy channel. *)
Inductive EnvOp : Type :=
| OpWatchAdd (k : string)
| OpWatchRemove (k : string)
| OpWatchClear
| OpCloseSend
| OpDestroy.

Definition apply_op (o : EnvOp) (c : ConsulConnection) : ConsulConnection :=
  match o with
  | OpWatchAdd k => set_watches ({[k]} ∪ watches c) c
  | OpWatchRemove k => set_watches (watches c ∖ {[k]}) c
  | OpWatchClear => set_watches ∅ c
  | OpCloseSend => set_sendClosed true c
  | OpDestroy => set_destroyCh true c
  end.

Definition apply_env (ops : list EnvOp) (c : ConsulConnection) : ConsulConnection :=
  fold_left (fun c o => apply_op o c) ops c.

(** ** Tasks: state passing with panics *)

Inductive Result (A : Type) : Type :=
| Value (a : A)
| Panic (v : PanicValue).
Arguments Value {A} a.
Arguments Panic {A} v.

Definition Task (A : Type) : Type := ConsulConnection -> Result A * ConsulConnection.

Definition ret {A : Type} (a : A) : Task A := fun c => (Value a, c).

Definition bind {A B : Type} (m : Task A) (k : A -> Task B) : Task B :=
  fun c =>
    match m c with
    | (Value a, c') => k a c'
    | (Panic v, c') => (Panic v, c')
    end.

Definition panic {A : Type} (v : PanicValue) : Task A := fun c => (Panic v, c).

#[global] Instance task_ret : MRet Task := fun A a => ret a.
#[global] Instance task_bind : MBind Task := fun A B k m => bind m k.

(** How a goroutine stands when its oracle is used up: still in its loop, or
    returned. *)
Inductive Status : Type := Running | Returned.

(** What one loop iteration decides. *)
Inductive Ctl (A : Type) : Type :=
| Continue (a : A)
| Return.
Arguments Continue {A} a.
Arguments Return {A}.

(** [defer]: the deferred function runs when the body returns or panics (not
    while the body is still in its loop).  It is given the panic value, if
    any, and answers whether it recovered from it. *)
Definition defer (d : option PanicValue -> Task bool) (body : Task Status) : Task Status :=
  fun c =>
    match body c with
    | (Value Running, c') => (Value Running, c')
    | (Value Returned, c') => (Value Returned, snd (d None c'))
    | (Panic v, c') =>
        match d (Some v) c' with
        | (Value true, c'') => (Value Returned, c'')
        | (_, c'') => (Panic v, c'')
        end
    end.

(** ** Primitive operations *)

Definition logf (lvl : Level) (format : string) (args : list LogArg) : Task unit :=
  fun c => (Value tt, emit (EvLog lvl format args) c).

Definition prefixed (c : ConsulConnection) (format : string) : string :=
  "[" +:+ shortID c +:+ "] " +:+ format.

Definition Warningf (format : string) (args : list LogArg) : Task unit :=
  fun c => logf LWarning (prefixed c format) args c.

Definition Errorf (format : string) (args : list LogArg) : Task unit :=
  fun c => logf LError (prefixed c format) args c.

Definition Infof (format : string) (args : list LogArg) : Task unit :=
  fun c => logf LInfo (prefixed c format) args c.

Definition Debugf (format : string) (args : list LogArg) : Task unit :=
  fun c => logf LDebug (prefixed c format) args c.

Definition Sleep (d : N) : Task unit :=
  fun c => (Value tt, emit (EvSleep d) c).

Definition watches_Has (k : string) : Task bool :=
  fun c => (Value (bool_decide (k ∈ watches c)), c).

Definition watches_Add (k : string) : Task unit :=
  fun c => (Value tt, set_watches ({[k]} ∪ watches c) c).

Definition watches_Remove (k : string) : Task unit :=
  fun c => (Value tt, set_watches (watches c ∖ {[k]}) c).

(** [c.send <- a]: a send on a closed channel panics. *)
Definition send_action (a : Action) : Task unit :=
  fun c =>
    if sendClosed c then (Panic SendOnClosedChannel, c)
    else (Value tt, set_send (send c ++ [a]) c).

Definition interfere (ops : list EnvOp) : Task unit :=
  fun c => (Value tt, apply_env ops c).

(** [action.Payload.(string)] *)
Definition assert_string (p : Payload) : Task string :=
  match p with
  | PString s => ret s
  | _ => panic (InterfaceConversion "string")
  end.

(** ** The outbound delivery loop *)

(** What the socket answers to one write. *)
Definition WriteResult : Type := option string.

Definition socket_Write (f : Frame) (r : WriteResult) : Task unit :=
  fun c => (Value tt, emit (EvWrite f r) c).

Definition socket_Close : Task unit :=
  fun c => (Value tt, emit EvSocketClose c).

(** [writePump] receives from [c.send] until the channel is closed.  The
    oracle is what the loop receives: the queued actions, each with the
    answer of the socket to its write, then (when [closed] is [Some]) the
    closure of the channel, with the answer to the close frame.  When the
    channel is not closed the loop is left blocked on the receive. *)
Fixpoint writePump_loop (queue : list (Action * WriteResult))
    (closed : option WriteResult) : Task Status :=
  match queue with
  | [] =>
      match closed with
      | None => mret Running
      | Some r =>
          socket_Write CloseMessage r ;;
          match r with
          | Some err =>
              Errorf "Could not write close message to websocket: %s" [ArgStr err]
          | None => mret tt
          end ;;
          mret Returned
      end
  | (action, r) :: rest =>
      socket_Write (JSONMessage action) r ;;
      match r with
      | Some err => Errorf "Could not write action to websocket: %s" [ArgStr err]
      | None => mret tt
      end ;;
      writePump_loop rest closed
  end.

Definition writePump (queue : list (Action * WriteResult))
    (closed : option WriteResult) : Task Status :=
  defer (fun _ : option PanicValue => socket_Close ;; mret false) (writePump_loop queue closed).

(** ** Shared watches *)

(** What [stream.Value()] holds: the pollers publish [*Action]; anything
    else fails the type assertion. *)
Inductive StreamValue : Type :=
| SVAction (a : Action)
| SVOther.

(** One round of the [select] of [watchGenericBroadcast]: what the other
    goroutines did while the loop waited, whether the stream has a new
    value, which case the runtime picks when both are ready, and what the
    other goroutines did between the membership check and the send. *)
Record BroadcastTick : Type := mkBroadcastTick {
  while_waiting : list EnvOp;
  change : option StreamValue;
  prefer_destroy : bool;
  before_publish : list EnvOp
}.

Definition on_change (watchKey actionEvent : string) (v : StreamValue)
    (ops : list EnvOp) : Task (Ctl unit) :=
  match v with
  | SVOther => panic (InterfaceConversion "*Action")
  | SVAction channelAction =>
      Debugf "got new data for %s (WaitIndex: %d)"
             [ArgStr watchKey; ArgNum (Index channelAction)] ;;
      has ← watches_Has watchKey;
      if negb has then
        Infof "Connection is no longer subscribed to %s" [ArgStr watchKey] ;;
        mret Return
      else if negb (bool_decide (Type' channelAction = actionEvent)) then
        Debugf "Type mismatch: %s <> %s" [ArgStr (Type' channelAction); ArgStr actionEvent] ;;
        mret (Continue tt)
      else
        Debugf "Publishing change %s %s" [ArgStr (Type' channelAction); ArgStr watchKey] ;;
        interfere ops ;;
        send_action channelAction ;;
        mret (Continue tt)
  end.

(** [select { case <-c.destroyCh: ...; case <-stream.Changes(): ... }]:
    with neither case ready the loop stays blocked for this round. *)
Definition broadcast_select (watchKey actionEvent : string) (t : BroadcastTick)
    : Task (Ctl unit) :=
  fun c =>
    match destroyCh c, change t with
    | true, None => (Value Return, c)
    | true, Some v =>
        if prefer_destroy t then (Value Return, c)
        else on_change watchKey actionEvent v (before_publish t) c
    | false, Some v => on_change watchKey actionEvent v (before_publish t) c
    | false, None => (Value (Continue tt), c)
    end.

Definition broadcast_iter (watchKey actionEvent : string) (t : BroadcastTick)
    : Task (Ctl unit) :=
  interfere (while_waiting t) ;;
  broadcast_select watchKey actionEvent t.

Fixpoint broadcast_loop (watchKey actionEvent : string) (prop : list BroadcastTick)
    : Task Status :=
  match prop with
  | [] => mret Running
  | t :: prop' =>
      r ← broadcast_iter watchKey actionEvent t;
      match r with
      | Return => mret Returned
      | Continue _ => broadcast_loop watchKey actionEvent prop'
      end
  end.

Definition watchGenericBroadcast (watchKey actionEvent : string)
    (prop : list BroadcastTick) (initialPayload : Payload) : Task Status :=
  has ← watches_Has watchKey;
  if (has : bool) then
    Warningf "Connection is already subscribed to %s" [ArgStr actionEvent] ;;
    mret Returned
  else
    defer
      (fun r : option PanicValue =>
         watches_Remove watchKey ;;
         Infof "Stopped watching %s" [ArgStr watchKey] ;;
         match r with
         | Some v => Warningf "Recover from panic: %s" [ArgPanic v] ;; mret true
         | None => mret false
         end)
      (watches_Add watchKey ;;
       Debugf "Sending our current %s list" [ArgStr watchKey] ;;
       send_action (mkAction actionEvent initialPayload 0) ;;
       Debugf "Started watching %s" [ArgStr watchKey] ;;
       broadcast_loop watchKey actionEvent prop).

Definition unwatchGenericBroadcast (watchKey : string) : Task unit :=
  Debugf "Removing subscription for %s" [ArgStr watchKey] ;;
  watches_Remove watchKey.

(** ** Per-entity watches *)

(** What [Health().Service] and [Health().Node] return: an error, or the
    value with [meta.LastIndex]. *)
Inductive QueryResult : Type :=
| QueryErr (err : string)
| QueryOk (value : Payload) (LastIndex : N).

(** One iteration of a per-entity loop: what the other goroutines did
    before the [select], what the blocking query returns, what they did
    while the query was blocked, and what they did between the membership
    check and the send. *)
Record Tick : Type := mkTick {
  before_select : list EnvOp;
  response : QueryResult;
  during_query : list EnvOp;
  before_send : list EnvOp
}.

Definition query (kind : EntityKind) (id : string) (q : QueryOptions) (t : Tick)
    : Task QueryResult :=
  fun c => (Value (response t), apply_env (during_query t) (emit (EvQuery kind id q) c)).

Definition destroy_ready : Task bool :=
  fun c => (Value (destroyCh c), c).

Definition service_iter (serviceID : string) (q : QueryOptions) (t : Tick)
    : Task (Ctl QueryOptions) :=
  interfere (before_select t) ;;
  destroyed ← destroy_ready;
  if (destroyed : bool) then mret Return
  else
    r ← query HealthService serviceID q t;
    match r with
    | QueryErr err =>
        Errorf "connection: unable to fetch consul service info: %s" [ArgStr err] ;;
        Sleep (10 * Second) ;;
        mret (Continue q)
    | QueryOk service remoteWaitIndex =>
        has ← watches_Has serviceID;
        if negb has then mret Return
        else
          let localWaitIndex := WaitIndex q in
          if localWaitIndex <? remoteWaitIndex then
            interfere (before_send t) ;;
            send_action (mkAction ActionType.fetchedConsulService service remoteWaitIndex) ;;
            Sleep (5 * Second) ;;
            mret (Continue (mkQueryOptions remoteWaitIndex (10 * Second)))
          else mret (Continue q)
    end.

Fixpoint service_loop (serviceID : string) (q : QueryOptions) (ticks : list Tick)
    : Task Status :=
  match ticks with
  | [] => mret Running
  | t :: ticks' =>
      r ← service_iter serviceID q t;
      match r with
      | Return => mret Returned
      | Continue q' => service_loop serviceID q' ticks'
      end
  end.

Definition watchConsulService (action : Action) (ticks : list Tick) : Task Status :=
  serviceID ← assert_string (Payload' action);
  has ← watches_Has serviceID;
  if (has : bool) then
    Warningf "Connection is already subscribed to service %s" [ArgStr serviceID] ;;
    mret Returned
  else
    defer
      (fun _ : option PanicValue =>
         watches_Remove serviceID ;;
         Infof "Stopped watching service with id: %s" [ArgStr serviceID] ;;
         mret false)
      (watches_Add serviceID ;;
       Infof "Started watching service with id: %s" [ArgStr serviceID] ;;
       service_loop serviceID (mkQueryOptions 1 0) ticks).

Definition node_iter (nodeID : string) (q : QueryOptions) (t : Tick)
    : Task (Ctl QueryOptions) :=
  interfere (before_select t) ;;
  destroyed ← destroy_ready;
  if (destroyed : bool) then mret Return
  else
    r ← query HealthNode nodeID q t;
    match r with
    | QueryErr err =>
        Errorf "connection: unable to fetch consul node info: %s" [ArgStr err] ;;
        Sleep (10 * Second) ;;
        mret (Continue q)
    | QueryOk node remoteWaitIndex =>
        has ← watches_Has nodeID;
        if negb has then mret Return
        else
          let localWaitIndex := WaitIndex q in
          if remoteWaitIndex =? localWaitIndex then
            Sleep (5 * Second) ;;
            mret (Continue q)
          else
            interfere (before_send t) ;;
            send_action (mkAction ActionType.fetchedConsulNode node remoteWaitIndex) ;;
            Sleep (5 * Second) ;;
            mret (Continue (mkQueryOptions remoteWaitIndex (10 * Second)))
    end.

Fixpoint node_loop (nodeID : string) (q : QueryOptions) (ticks : list Tick)
    : Task Status :=
  match ticks with
  | [] => mret Running
  | t :: ticks' =>
      r ← node_iter nodeID q t;
      match r with
      | Return => mret Returned
      | Continue q' => node_loop nodeID q' ticks'
      end
  end.

Definition watchConsulNode (action : Action) (ticks : list Tick) : Task Status :=
  nodeID ← assert_string (Payload' action);
  has ← watches_Has nodeID;
  if (has : bool) then
    Warningf "Connection is already subscribed to node %s" [ArgStr nodeID] ;;
    mret Returned
  else
    defer
      (fun _ : option PanicValue =>
         watches_Remove nodeID ;;
         Infof "Stopped watching node with id: %s" [ArgStr nodeID] ;;
         mret false)
      (watches_Add nodeID ;;
       Infof "Started watching node with id: %s" [ArgStr nodeID] ;;
       node_loop nodeID (mkQueryOptions 1 0) ticks).

(** ** Dispatch *)

Definition fetchRegions : Task unit :=
  fun c => send_action (mkAction ActionType.fetchedConsulRegions (hubRegions c) 0) c.

Definition String_eqb (a b : string) : bool := bool_decide (a = b).

(** [process]: the goroutines it starts are returned; the arguments of a
    [go] statement are evaluated by [process] itself. *)
Definition process (action : Action) : Task (list Goroutine) :=
  Debugf "Processing event %s (index %d)" [ArgStr (Type' action); ArgNum (Index action)] ;;
  let ty := Type' action in
  if String_eqb ty ActionType.fetchConsulRegions then
    mret [GoFetchRegions]
  else if String_eqb ty ActionType.watchConsulServices then
    fun c => (Value [GoWatchGenericBroadcast "services" ActionType.fetchedConsulServices
                       (regionServices c)], c)
  else if String_eqb ty ActionType.unwatchConsulServices then
    unwatchGenericBroadcast "services" ;; mret []
  else if String_eqb ty ActionType.watchConsulService then
    mret [GoWatchConsulService action]
  else if String_eqb ty ActionType.unwatchConsulService then
    k ← assert_string (Payload' action);
    watches_Remove k ;; mret []
  else if String_eqb ty ActionType.watchConsulNodes then
    fun c => (Value [GoWatchGenericBroadcast "nodes" ActionType.fetchedConsulNodes
                       (regionNodes c)], c)
  else if String_eqb ty ActionType.unwatchConsulNodes then
    unwatchGenericBroadcast "nodes" ;; mret []
  else if String_eqb ty ActionType.watchConsulNode then
    mret [GoWatchConsulNode action]
  else if String_eqb ty ActionType.unwatchConsulNode then
    k ← assert_string (Payload' action);
    watches_Remove k ;; mret []
  else
    logf LWarning "Unknown action: %s" [ArgStr ty] ;; mret [].

(** The body of a started goroutine.  [prop] is what the observed property
    publishes, [ticks] what the Consul client answers. *)
Definition go (g : Goroutine) (prop : list BroadcastTick) (ticks : list Tick)
    : Task Status :=
  match g with
  | GoFetchRegions => fetchRegions ;; mret Returned
  | GoWatchGenericBroadcast watchKey actionEvent initialPayload =>
      watchGenericBroadcast watchKey actionEvent prop initialPayload
  | GoWatchConsulService action => watchConsulService action ticks
  | GoWatchConsulNode action => watchConsulNode action ticks
  end.

(** ** Observations *)

Definition indices (l : list Action) : list N := map Index l.

(** A connection with nothing watched, an open and empty outbound queue and
    no destroy signal. *)
Definition fresh (id : string) : ConsulConnection :=
  mkConn id ∅ [] false false PNil PNil PNil [].

(** A connection that watches [keys]. *)
Definition watching (id : string) (keys : list string) : ConsulConnection :=
  mkConn id (list_to_set keys) [] false false PNil PNil PNil [].

(** A teardown that overtakes a per-entity watch: the backend answers with
    marker 2; after the membership check and before the send, the read pump
    clears the watch set and the hub closes the outbound queue. *)
Definition teardown_tick : Tick :=
  mkTick [] (QueryOk PNil 2) [] [OpWatchClear; OpCloseSend].

Definition ok_tick (v : Payload) (i : N) : Tick := mkTick [] (QueryOk v i) [] [].
Definition err_tick (e : string) : Tick := mkTick [] (QueryErr e) [] [].

Definition watchService (id : string) : Action := mkAction ActionType.watchConsulService (PString id) 0.
Definition watchNode (id : string) : Action := mkAction ActionType.watchConsulNode (PString id) 0.

Definition services_tick (a : Action) : BroadcastTick := mkBroadcastTick [] (Some (SVAction a)) false [].

(** The socket writes recorded in a trace, in order. *)
Definition writes (tr : list Event) : list (Frame * WriteResult) :=
  flat_map (fun e => match e with EvWrite f r => [(f, r)] | _ => [] end) tr.

(** The backend queries recorded in a trace, in order. *)
Definition queries (tr : list Event) : list (EntityKind * string * QueryOptions) :=
  flat_map (fun e => match e with EvQuery k id q => [(k, id, q)] | _ => [] end) tr.

(** The sleeps recorded in a trace, in order. *)
Definition sleeps (tr : list Event) : list N :=
  flat_map (fun e => match e with EvSleep d => [d] | _ => [] end) tr.

Fixpoint strictly_increasing (l : list N) : bool :=
  match l with
  | a :: (b :: _) as tl => (a <? b) && strictly_increasing tl
  | _ => true
  end.

Fixpoint no_repeat (l : list N) : bool :=
  match l with
  | a :: (b :: _) as tl => negb (a =? b) && no_repeat tl
  | _ => true
  end.

Fixpoint nondecreasing (l : list N) : bool :=
  match l with
  | a :: (b :: _) as tl => (a <=? b) && nondecreasing tl
  | _ => true
  end.

(** The version markers the backend returns over a run, in order. *)
Definition markers (ticks : list Tick) : list N :=
  flat_map (fun t => match response t with QueryOk _ i => [i] | QueryErr _ => [] end) ticks.

Definition is_error (t : Tick) : bool :=
  match response t with QueryErr _ => true | QueryOk _ _ => false end.

Definition is_destroy (o : EnvOp) : bool :=
  match o with OpDestroy => true | _ => false end.

(** No destroy signal arrives during the iteration. *)
Definition undisturbed (t : Tick) : bool :=
  forallb (fun o => negb (is_destroy o)) (before_select t ++ during_query t ++ before_send t).

(** ** Intermediate states *)

Definition service_error_log (c : ConsulConnection) (err : string) : Event :=
  EvLog LError (prefixed c "connection: unable to fetch consul service info: %s") [ArgStr err].

Definition node_error_log (c : ConsulConnection) (err : string) : Event :=
  EvLog LError (prefixed c "connection: unable to fetch consul node info: %s") [ArgStr err].

Definition publish (a : Action) (c : ConsulConnection) : ConsulConnection :=
  emit (EvSleep (5 * Second)) (set_send (send c ++ [a]) c).

Definition service_started (serviceID : string) (c : ConsulConnection) : ConsulConnection :=
  emit (EvLog LInfo (prefixed c "Started watching service with id: %s") [ArgStr serviceID])
       (set_watches ({[serviceID]} ∪ watches c) c).

Definition service_stopped (serviceID : string) (c : ConsulConnection) : ConsulConnection :=
  emit (EvLog LInfo (prefixed c "Stopped watching service with id: %s") [ArgStr serviceID])
       (set_watches (watches c ∖ {[serviceID]}) c).

Definition node_started (nodeID : string) (c : ConsulConnection) : ConsulConnection :=
  emit (EvLog LInfo (prefixed c "Started watching node with id: %s") [ArgStr nodeID])
       (set_watches ({[nodeID]} ∪ watches c) c).

Definition node_stopped (nodeID : string) (c : ConsulConnection) : ConsulConnection :=
  emit (EvLog LInfo (prefixed c "Stopped watching node with id: %s") [ArgStr nodeID])
       (set_watches (watches c ∖ {[nodeID]}) c).

(** The actions a task adds to the outbound queue when run from [c]. *)
Definition sent_by (task : Task Status) (c : ConsulConnection) : list Action :=
  drop (length (send c)) (send (snd (task c))).

Definition broadcast_stopped (watchKey : string) (c : ConsulConnection) : ConsulConnection :=
  emit (EvLog LInfo (prefixed c "Stopped watching %s") [ArgStr watchKey])
       (set_watches (watches c ∖ {[watchKey]}) c).

Definition broadcast_recovered (watchKey : string) (v : PanicValue) (c : ConsulConnection)
    : ConsulConnection :=
  emit (EvLog LWarning (prefixed c "Recover from panic: %s") [ArgPanic v])
       (broadcast_stopped watchKey c).

Definition broadcast_attached (watchKey : string) (c : ConsulConnection) : ConsulConnection :=
  emit (EvLog LDebug (prefixed c "Sending our current %s list") [ArgStr watchKey])
       (set_watches ({[watchKey]} ∪ watches c) c).

Definition broadcast_started (watchKey actionEvent : string) (initialPayload : Payload)
    (c : ConsulConnection) : ConsulConnection :=
  emit (EvLog LDebug (prefixed c "Started watching %s") [ArgStr watchKey])
       (set_send (send c ++ [mkAction actionEvent initialPayload 0])
                 (broadcast_attached watchKey c)).

(** The environment of an iteration up to the membership check. *)
Definition env_until_check (t : Tick) : list EnvOp := before_select t ++ during_query t.

(** No other goroutine touches the shared state during the iteration. *)
Definition calm (t : Tick) : bool :=
  match before_select t, during_query t, before_send t with
  | [], [], [] => true
  | _, _, _ => false
  end.

(** The backend's answer carries a marker that is not past [q]. *)
Definition stale (q : QueryOptions) (t : Tick) : bool :=
  match response t with
  | QueryOk _ i => i <=? WaitIndex q
  | QueryErr _ => true
  end.

(** What a run of errors leaves behind. *)
Record error_run (kind : EntityKind) (id : string) (q : QueryOptions) (ticks : list Tick)
    (c c' : ConsulConnection) : Prop := mkErrorRun {
  er_send : send c' = send c;
  er_watches : watches c' = watches (apply_env (flat_map env_until_check ticks) c);
  er_alive : destroyCh c' = false;
  er_queries : queries (trace c') = queries (trace c) ++ repeat (kind, id, q) (length ticks);
  er_sleeps : sleeps (trace c') = sleeps (trace c) ++ repeat (10 * Second) (length ticks)
}.

(** What [writePump] does for the queued actions, and on closure. *)
Definition pump_events (c : ConsulConnection) (queue : list (Action * WriteResult))
    : list Event :=
  flat_map
    (fun ar =>
       EvWrite (JSONMessage (fst ar)) (snd ar) ::
       match snd ar with
       | Some err =>
           [EvLog LError (prefixed c "Could not write action to websocket: %s") [ArgStr err]]
       | None => []
       end)
    queue.

Definition close_events (c : ConsulConnection) (r : WriteResult) : list Event :=
  EvWrite CloseMessage r ::
  match r with
  | Some err =>
      [EvLog LError (prefixed c "Could not write close message to websocket: %s")
             [ArgStr err]]
  | None => []
  end.

Definition frames (queue : list (Action * WriteResult)) : list (Frame * WriteResult) :=
  map (fun ar => (JSONMessage (fst ar), snd ar)) queue.

Definition processing_log (c : ConsulConnection) (action : Action) : Event :=
  EvLog LDebug (prefixed c "Processing event %s (index %d)")
        [ArgStr (Type' action); ArgNum (Index action)].

(** The actions the observed property publishes over a run. *)
Definition published (prop : list BroadcastTick) : list Action :=
  flat_map (fun t => match change t with Some (SVAction a) => [a] | _ => [] end) prop.

(** ** The session: [NewConsulConnection], [readPump] and [Handle] *)

(** [NewConsulConnection]: [connectionID] is the text of the fresh UUID; the
    short id is its first eight bytes, and the slice [[0:8]] of a shorter
    text is a run-time panic ([None]).  The hub's region list and the
    region's cached lists are what the new connection can read through
    [c.hub] and [c.region]. *)
Definition NewConsulConnection (connectionID : string) (regions services nodes : Payload)
    : option ConsulConnection :=
  if (String.length connectionID <? 8)%nat then None
  else Some (mkConn (String.substring 0 8 connectionID) ∅ [] false false
                    regions services nodes []).

(** What [c.socket.ReadJSON(&action)] leaves: an error, or the value of the
    variable [action] after the message has been decoded into it. *)
Inductive ReadResult : Type :=
| ReadOk (action : Action)
| ReadErr (err : string).

(** What the connection sends to its hub. *)
Inductive HubRequest : Type := HubRegister | HubUnregister.

Inductive Routine : Type :=
| RWritePump
| RTask (g : Goroutine).

(** The connection with what it has asked of the hub and the goroutines it
    has started, in order. *)
Record Session : Type := mkSession {
  conn : ConsulConnection;
  hubRequests : list HubRequest;
  started : list Routine
}.

Definition SessionTask (A : Type) : Type := Session -> Result A * Session.

Definition lift {A : Type} (m : Task A) : SessionTask A :=
  fun s =>
    match m (conn s) with
    | (r, c') => (r, mkSession c' (hubRequests s) (started s))
    end.

Definition hub_send (r : HubRequest) (s : Session) : Session :=
  mkSession (conn s) (hubRequests s ++ [r]) (started s).

Definition start (rs : list Routine) (s : Session) : Session :=
  mkSession (conn s) (hubRequests s) (started s ++ rs).

Definition watches_Clear (s : Session) : Session :=
  mkSession (set_watches ∅ (conn s)) (hubRequests s) (started s).

Definition session_socket_Close (s : Session) : Session :=
  mkSession (emit EvSocketClose (conn s)) (hubRequests s) (started s).

(** The loop of [readPump]: a read error ends it; with nothing more to read
    it stays blocked in [ReadJSON]. *)
Fixpoint readPump_loop (reads : list ReadResult) : SessionTask Status :=
  fun s =>
    match reads with
    | [] => (Value Running, s)
    | ReadErr _ :: _ => (Value Returned, s)
    | ReadOk action :: reads' =>
        match lift (process action) s with
        | (Value gs, s') => readPump_loop reads' (start (map RTask gs) s')
        | (Panic v, s') => (Panic v, s')
        end
    end.

Definition readPump_deferred (s : Session) : Session :=
  session_socket_Close (hub_send HubUnregister (watches_Clear s)).

Definition readPump (reads : list ReadResult) : SessionTask Status :=
  fun s =>
    match readPump_loop reads (hub_send HubRegister s) with
    | (Value Running, s') => (Value Running, s')
    | (r, s') => (r, readPump_deferred s')
    end.


Definition new_session (c : ConsulConnection) : Session := mkSession c [] [].

(** The actions read before the first read error. *)
Fixpoint read_prefix (reads : list ReadResult) : list Action :=
  match reads with
  | ReadOk a :: reads' => a :: read_prefix reads'
  | _ => []
  end.

(** ** More observations *)

(** The successful answers of the backend over a run, in order. *)
Definition answers (ticks : list Tick) : list (Payload * N) :=
  flat_map (fun t => match response t with QueryOk v i => [(v, i)] | QueryErr _ => [] end) ticks.

Definition content (a : Action) : Payload * N := (Payload' a, Index a).

(** The options of the successive queries of a loop that publishes every
    answer: the first query carries [q], each later one the marker of the
    answer before it and a wait time of 10 s. *)
Fixpoint resume_points (q : QueryOptions) (ms : list N) : list QueryOptions :=
  match ms with
  | [] => []
  | i :: ms' => q :: resume_points (mkQueryOptions i (10 * Second)) ms'
  end.

(** The stream carries an action at every round, and nobody interferes. *)
Definition steady_change (t : BroadcastTick) : bool :=
  match while_waiting t, change t, before_publish t with
  | [], Some (SVAction _), [] => true
  | _, _, _ => false
  end.

Definition has_type (ty : string) (a : Action) : bool := bool_decide (Type' a = ty).

(** The nine action types [process] knows. *)
Definition known_types : list string :=
  [ActionType.fetchConsulRegions; ActionType.watchConsulServices;
   ActionType.unwatchConsulServices; ActionType.watchConsulService;
   ActionType.unwatchConsulService; ActionType.watchConsulNodes;
   ActionType.unwatchConsulNodes; ActionType.watchConsulNode;
   ActionType.unwatchConsulNode].

(** Two connections that differ at most in their logs and in the types of
    the queued actions. *)
Record alike (c1 c2 : ConsulConnection) : Prop := mkAlike {
  alike_watches : watches c1 = watches c2;
  alike_send : map content (send c1) = map content (send c2);
  alike_sendClosed : sendClosed c1 = sendClosed c2;
  alike_destroyCh : destroyCh c1 = destroyCh c2
}.

(** The action a per-entity watch makes of an answer of the backend. *)
Definition fetched (ty : string) (vi : Payload * N) : Action := mkAction ty (fst vi) (snd vi).

(** What an undisturbed run that publishes every answer leaves behind. *)
Record steady_run (kind : EntityKind) (ty id : string) (q : QueryOptions)
    (ticks : list Tick) (c c' : ConsulConnection) : Prop := mkSteadyRun {
  sr_send : send c' = send c ++ map (fetched ty) (answers ticks);
  sr_watches : watches c' = watches c;
  sr_queries : queries (trace c') =
               queries (trace c) ++ map (fun q' => (kind, id, q')) (resume_points q (markers ticks));
  sr_sleeps : sleeps (trace c') = sleeps (trace c) ++ repeat (5 * Second) (length ticks)
}.

(** * Properties *)

Ltac task_unfold :=
  unfold mbind, task_bind, bind, mret, task_ret, ret, panic, interfere, destroy_ready,
    watches_Has, watches_Add, watches_Remove, Sleep, Warningf, Errorf, Infof, Debugf,
    logf, socket_Write, socket_Close, send_action in *.

(** ** What the environment and the log leave alone *)

Lemma shortID_apply_env ops c : shortID (apply_env ops c) = shortID c.
Proof.
  revert c. induction ops as [|o ops IH]; intros c; [done|].
  simpl. rewrite IH. by destruct o.
Qed.

Lemma send_apply_env ops c : send (apply_env ops c) = send c.
Proof.
  revert c. induction ops as [|o ops IH]; intros c; [done|].
  simpl. rewrite IH. by destruct o.
Qed.

Lemma trace_apply_env ops c : trace (apply_env ops c) = trace c.
Proof.
  revert c. induction ops as [|o ops IH]; intros c; [done|].
  simpl. rewrite IH. by destruct o.
Qed.

Lemma apply_env_app ops1 ops2 c :
  apply_env (ops1 ++ ops2) c = apply_env ops2 (apply_env ops1 c).
Proof. unfold apply_env. by rewrite fold_left_app. Qed.

Lemma apply_env_emit ops e c : apply_env ops (emit e c) = emit e (apply_env ops c).
Proof.
  revert c. induction ops as [|o ops IH]; intros c; [done|].
  simpl. rewrite <- IH. by destruct o.
Qed.

Lemma prefixed_apply_env ops c fmt : prefixed (apply_env ops c) fmt = prefixed c fmt.
Proof. unfold prefixed. by rewrite shortID_apply_env. Qed.

Lemma prefixed_emit e c fmt : prefixed (emit e c) fmt = prefixed c fmt.
Proof. done. Qed.

Lemma destroyCh_apply_env ops c :
  forallb (fun o => negb (is_destroy o)) ops = true ->
  destroyCh (apply_env ops c) = destroyCh c.
Proof.
  revert c. induction ops as [|o ops IH]; intros c H; [done|].
  simpl in *. apply andb_prop in H as [Ho H]. rewrite IH by done.
  by destruct o.
Qed.

Lemma watches_Remove_absent k c : k ∉ watches c -> snd (watches_Remove k c) = c.
Proof.
  intros H. destruct c as [i w q sc d hr rs rn tr]. unfold watches_Remove, set_watches.
  simpl in *. f_equal. apply leibniz_equiv. intros x.
  rewrite elem_of_difference, elem_of_singleton.
  split; [by intros [Hx _] | intros Hx; split; [done | by intros ->]].
Qed.

(** ** One iteration, written out *)

Lemma service_iter_unfold serviceID q t c :
  let c1 := apply_env (before_select t) c in
  let c2 := apply_env (during_query t) (emit (EvQuery HealthService serviceID q) c1) in
  let c3 := apply_env (before_send t) c2 in
  service_iter serviceID q t c =
    if destroyCh c1 then (Value Return, c1)
    else match response t with
         | QueryErr err =>
             (Value (Continue q), emit (EvSleep (10 * Second)) (emit (service_error_log c err) c2))
         | QueryOk service i =>
             if bool_decide (serviceID ∈ watches c2) then
               if WaitIndex q <? i then
                 if sendClosed c3 then (Panic SendOnClosedChannel, c3)
                 else (Value (Continue (mkQueryOptions i (10 * Second))),
                       publish (mkAction ActionType.fetchedConsulService service i) c3)
               else (Value (Continue q), c2)
             else (Value Return, c2)
         end.
Proof.
  intros c1 c2 c3. unfold service_iter, query. task_unfold. fold c1.
  destruct (destroyCh c1); [done|]. fold c2.
  destruct (response t) as [err|service i].
  - unfold service_error_log. subst c2 c1.
    by rewrite !prefixed_apply_env, prefixed_emit, prefixed_apply_env.
  - destruct (bool_decide (serviceID ∈ watches c2)); simpl; [|done].
    destruct (WaitIndex q <? i); [|done]. fold c3.
    by destruct (sendClosed c3).
Qed.

Lemma node_iter_unfold nodeID q t c :
  let c1 := apply_env (before_select t) c in
  let c2 := apply_env (during_query t) (emit (EvQuery HealthNode nodeID q) c1) in
  let c3 := apply_env (before_send t) c2 in
  node_iter nodeID q t c =
    if destroyCh c1 then (Value Return, c1)
    else match response t with
         | QueryErr err =>
             (Value (Continue q), emit (EvSleep (10 * Second)) (emit (node_error_log c err) c2))
         | QueryOk node i =>
             if bool_decide (nodeID ∈ watches c2) then
               if i =? WaitIndex q then (Value (Continue q), emit (EvSleep (5 * Second)) c2)
               else if sendClosed c3 then (Panic SendOnClosedChannel, c3)
               else (Value (Continue (mkQueryOptions i (10 * Second))),
                     publish (mkAction ActionType.fetchedConsulNode node i) c3)
             else (Value Return, c2)
         end.
Proof.
  intros c1 c2 c3. unfold node_iter, query. task_unfold. fold c1.
  destruct (destroyCh c1); [done|]. fold c2.
  destruct (response t) as [err|node i].
  - unfold node_error_log. subst c2 c1.
    by rewrite !prefixed_apply_env, prefixed_emit, prefixed_apply_env.
  - destruct (bool_decide (nodeID ∈ watches c2)); simpl; [|done].
    destruct (i =? WaitIndex q); [done|]. fold c3.
    by destruct (sendClosed c3).
Qed.

(** ** The loops, one iteration at a time *)

Lemma service_loop_cons serviceID q t ticks c :
  service_loop serviceID q (t :: ticks) c =
    match service_iter serviceID q t c with
    | (Value (Continue q'), c') => service_loop serviceID q' ticks c'
    | (Value Return, c') => (Value Returned, c')
    | (Panic v, c') => (Panic v, c')
    end.
Proof.
  simpl. unfold mbind, task_bind, bind.
  destruct (service_iter serviceID q t c) as [[[q'|]|v] c']; done.
Qed.

Lemma node_loop_cons nodeID q t ticks c :
  node_loop nodeID q (t :: ticks) c =
    match node_iter nodeID q t c with
    | (Value (Continue q'), c') => node_loop nodeID q' ticks c'
    | (Value Return, c') => (Value Returned, c')
    | (Panic v, c') => (Panic v, c')
    end.
Proof.
  simpl. unfold mbind, task_bind, bind.
  destruct (node_iter nodeID q t c) as [[[q'|]|v] c']; done.
Qed.

Lemma watchConsulService_unfold action serviceID ticks c :
  Payload' action = PString serviceID ->
  watchConsulService action ticks c =
    if bool_decide (serviceID ∈ watches c) then
      (Value Returned,
       emit (EvLog LWarning (prefixed c "Connection is already subscribed to service %s")
                   [ArgStr serviceID]) c)
    else
      match service_loop serviceID (mkQueryOptions 1 0) ticks (service_started serviceID c) with
      | (Value Running, c') => (Value Running, c')
      | (r, c') => (r, service_stopped serviceID c')
      end.
Proof.
  intros HP. unfold watchConsulService. rewrite HP. simpl. task_unfold.
  destruct (bool_decide (serviceID ∈ watches c)); [done|].
  unfold defer. task_unfold. fold (service_started serviceID c).
  destruct (service_loop _ _ _ _) as [[[|]|v] c']; done.
Qed.

Lemma watchConsulNode_unfold action nodeID ticks c :
  Payload' action = PString nodeID ->
  watchConsulNode action ticks c =
    if bool_decide (nodeID ∈ watches c) then
      (Value Returned,
       emit (EvLog LWarning (prefixed c "Connection is already subscribed to node %s")
                   [ArgStr nodeID]) c)
    else
      match node_loop nodeID (mkQueryOptions 1 0) ticks (node_started nodeID c) with
      | (Value Running, c') => (Value Running, c')
      | (r, c') => (r, node_stopped nodeID c')
      end.
Proof.
  intros HP. unfold watchConsulNode. rewrite HP. simpl. task_unfold.
  destruct (bool_decide (nodeID ∈ watches c)); [done|].
  unfold defer. task_unfold. fold (node_started nodeID c).
  destruct (node_loop _ _ _ _) as [[[|]|v] c']; done.
Qed.

(** ** What the per-entity loops put on the outbound queue *)

Lemma sent_by_app task c new :
  send (snd (task c)) = send c ++ new -> sent_by task c = new.
Proof. intros H. unfold sent_by. rewrite H. by rewrite drop_app_length. Qed.

Lemma strictly_increasing_tail a l :
  strictly_increasing (a :: l) = true -> strictly_increasing l = true.
Proof. destruct l as [|b l]; [done|]. simpl. by intros [_ H]%andb_prop. Qed.

Lemma no_repeat_tail a l : no_repeat (a :: l) = true -> no_repeat l = true.
Proof. destruct l as [|b l]; [done|]. simpl. by intros [_ H]%andb_prop. Qed.

Ltac frame := repeat (simpl; rewrite ?send_apply_env, ?trace_apply_env, ?shortID_apply_env).

Lemma service_loop_sent serviceID ticks : forall q c,
  exists new,
    send (snd (service_loop serviceID q ticks c)) = send c ++ new /\
    strictly_increasing (WaitIndex q :: indices new) = true.
Proof.
  induction ticks as [|t ticks IH]; intros q c.
  { exists []. by rewrite app_nil_r. }
  rewrite service_loop_cons, service_iter_unfold. cbv zeta.
  destruct (destroyCh _).
  { exists []. frame. by rewrite app_nil_r. }
  destruct (response t) as [err|service i].
  { destruct (IH q (emit (EvSleep (10 * Second))
       (emit (service_error_log c err)
          (apply_env (during_query t)
             (emit (EvQuery HealthService serviceID q) (apply_env (before_select t) c))))))
      as [new [Hs Hi]].
    exists new. rewrite Hs. by frame. }
  destruct (bool_decide _).
  2:{ exists []. frame. by rewrite app_nil_r. }
  destruct (WaitIndex q <? i) eqn:Hlt.
  2:{ destruct (IH q (apply_env (during_query t)
         (emit (EvQuery HealthService serviceID q) (apply_env (before_select t) c))))
        as [new [Hs Hi]].
      exists new. rewrite Hs. by frame. }
  destruct (sendClosed _).
  { exists []. frame. by rewrite app_nil_r. }
  match goal with |- context [service_loop _ ?q' _ ?c'] =>
    destruct (IH q' c') as [new [Hs Hi]] end.
  exists (mkAction ActionType.fetchedConsulService service i :: new).
  rewrite Hs. frame. rewrite <- app_assoc. split; [done|].
  simpl in Hi. by rewrite Hlt.
Qed.

Lemma node_loop_sent nodeID ticks : forall q c,
  exists new,
    send (snd (node_loop nodeID q ticks c)) = send c ++ new /\
    no_repeat (WaitIndex q :: indices new) = true.
Proof.
  induction ticks as [|t ticks IH]; intros q c.
  { exists []. by rewrite app_nil_r. }
  rewrite node_loop_cons, node_iter_unfold. cbv zeta.
  destruct (destroyCh _).
  { exists []. frame. by rewrite app_nil_r. }
  destruct (response t) as [err|node i].
  { match goal with |- context [node_loop _ ?q' _ ?c'] =>
      destruct (IH q' c') as [new [Hs Hi]] end.
    exists new. rewrite Hs. by frame. }
  destruct (bool_decide _).
  2:{ exists []. frame. by rewrite app_nil_r. }
  destruct (i =? WaitIndex q) eqn:Heq.
  { match goal with |- context [node_loop _ ?q' _ ?c'] =>
      destruct (IH q' c') as [new [Hs Hi]] end.
    exists new. rewrite Hs. by frame. }
  destruct (sendClosed _).
  { exists []. frame. by rewrite app_nil_r. }
  match goal with |- context [node_loop _ ?q' _ ?c'] =>
    destruct (IH q' c') as [new [Hs Hi]] end.
  exists (mkAction ActionType.fetchedConsulNode node i :: new).
  rewrite Hs. frame. rewrite <- app_assoc. split; [done|].
  simpl in Hi. rewrite N.eqb_sym, Heq. done.
Qed.

(** With a backend whose markers never go back, from the lower bound [lo]
    on. *)
Lemma node_loop_sent_monotone nodeID ticks : forall q c lo,
  nondecreasing (lo :: markers ticks) = true ->
  exists new,
    send (snd (node_loop nodeID q ticks c)) = send c ++ new /\
    strictly_increasing (indices new) = true /\
    Forall (fun i => lo <= i) (indices new) /\
    head (indices new) <> Some (WaitIndex q).
Proof.
  induction ticks as [|t ticks IH]; intros q c lo Hmono.
  { exists []. by rewrite app_nil_r. }
  rewrite node_loop_cons, node_iter_unfold. cbv zeta.
  destruct (destroyCh _).
  { exists []. frame. by rewrite app_nil_r. }
  unfold markers in Hmono. simpl in Hmono. fold (markers ticks) in Hmono.
  destruct (response t) as [err|node i].
  { match goal with |- context [node_loop _ ?q' _ ?c'] =>
      destruct (IH q' c' lo Hmono) as [new [Hs Hi]] end.
    exists new. rewrite Hs. by frame. }
  simpl in Hmono. apply andb_prop in Hmono as [Hlo Hmono]. apply N.leb_le in Hlo.
  destruct (bool_decide _).
  2:{ exists []. frame. by rewrite app_nil_r. }
  destruct (i =? WaitIndex q) eqn:Heq.
  { match goal with |- context [node_loop _ ?q' _ ?c'] =>
      destruct (IH q' c' i Hmono) as [new (Hs & Hi & Hge & Hhd)] end.
    exists new. rewrite Hs. frame. repeat split; try done.
    eapply Forall_impl; [exact Hge|]. simpl. lia. }
  destruct (sendClosed _).
  { exists []. frame. by rewrite app_nil_r. }
  match goal with |- context [node_loop _ ?q' _ ?c'] =>
    destruct (IH q' c' i Hmono) as [new (Hs & Hi & Hge & Hhd)] end.
  exists (mkAction ActionType.fetchedConsulNode node i :: new).
  rewrite Hs. frame. rewrite <- app_assoc. split; [done|]. split; [|split].
  - destruct new as [|a new]; [done|]. simpl in *.
    rewrite Hi, andb_true_r. apply N.ltb_lt.
    apply Forall_cons in Hge as [Hge _].
    assert (Index a <> i) by congruence. lia.
  - constructor; [done|]. eapply Forall_impl; [exact Hge|]. simpl. lia.
  - simpl. apply N.eqb_neq in Heq. congruence.
Qed.

Lemma watchConsulService_sent action ticks c :
  exists new,
    send (snd (watchConsulService action ticks c)) = send c ++ new /\
    strictly_increasing (1 :: indices new) = true.
Proof.
  destruct (Payload' action) as [| | |serviceID| |] eqn:HP;
    try (exists []; unfold watchConsulService; rewrite HP; simpl; by rewrite app_nil_r).
  rewrite (watchConsulService_unfold _ serviceID) by done.
  destruct (bool_decide _).
  { exists []. simpl. by rewrite app_nil_r. }
  destruct (service_loop_sent serviceID ticks (mkQueryOptions 1 0) (service_started serviceID c))
    as [new [Hs Hi]].
  exists new. split; [|done].
  destruct (service_loop _ _ _ _) as [[[|]|v] c']; simpl in *; by rewrite Hs.
Qed.

Lemma watchConsulNode_sent action ticks c :
  exists new,
    send (snd (watchConsulNode action ticks c)) = send c ++ new /\
    no_repeat (1 :: indices new) = true /\
    (nondecreasing (markers ticks) = true -> strictly_increasing (indices new) = true).
Proof.
  destruct (Payload' action) as [| | |nodeID| |] eqn:HP;
    try (exists []; unfold watchConsulNode; rewrite HP; simpl; by rewrite app_nil_r).
  rewrite (watchConsulNode_unfold _ nodeID) by done.
  destruct (bool_decide _).
  { exists []. simpl. by rewrite app_nil_r. }
  destruct (node_loop_sent nodeID ticks (mkQueryOptions 1 0) (node_started nodeID c))
    as [new [Hs Hi]].
  exists new. split; [|split; [done|]].
  - destruct (node_loop _ _ _ _) as [[[|]|v] c']; simpl in *; by rewrite Hs.
  - intros Hmono.
    destruct (node_loop_sent_monotone nodeID ticks (mkQueryOptions 1 0)
                (node_started nodeID c) 0) as [new' (Hs' & Hi' & _)].
    { destruct (markers ticks) as [|b l]; [done|].
      change ((0 <=? b) && nondecreasing (b :: l) = true).
      rewrite Hmono. by destruct b. }
    rewrite Hs in Hs'. by apply app_inv_head in Hs' as ->.
Qed.

(** C1 (as amended): the markers [watchConsulService] puts on the outbound
    queue are strictly increasing.  [watchConsulNode] publishes whenever the
    returned marker differs from the local one: it never sends the same
    marker twice in a row, and its markers are strictly increasing when the
    markers returned by the backend never go back. *)
Theorem entity_markers_ordered (action : Action) (ticks : list Tick) (c : ConsulConnection) :
  (send (snd (watchConsulService action ticks c))
     = send c ++ sent_by (watchConsulService action ticks) c /\
   strictly_increasing (indices (sent_by (watchConsulService action ticks) c)) = true) /\
  (send (snd (watchConsulNode action ticks c))
     = send c ++ sent_by (watchConsulNode action ticks) c /\
   no_repeat (indices (sent_by (watchConsulNode action ticks) c)) = true /\
   (nondecreasing (markers ticks) = true ->
    strictly_increasing (indices (sent_by (watchConsulNode action ticks) c)) = true)).
Proof.
  destruct (watchConsulService_sent action ticks c) as [new [Hs Hi]].
  destruct (watchConsulNode_sent action ticks c) as [new' (Hs' & Hi' & Hm')].
  rewrite (sent_by_app _ _ _ Hs), (sent_by_app _ _ _ Hs').
  repeat split; try done.
  - by apply strictly_increasing_tail in Hi.
  - by apply no_repeat_tail in Hi'.
Qed.

Lemma entity_markers_ordered_witness :
  strictly_increasing
    (indices (sent_by (watchConsulNode (watchNode "node-1")
                         [ok_tick PNil 0; ok_tick PNil 0; err_tick "timeout"; ok_tick PNil 4])
                      (fresh "c0ffee00"))) = true.
Proof.
  apply (proj2 (proj2 (proj2 (entity_markers_ordered (watchNode "node-1")
           [ok_tick PNil 0; ok_tick PNil 0; err_tick "timeout"; ok_tick PNil 4]
           (fresh "c0ffee00"))))).
  reflexivity.
Defined.

(** C1 fails on [watchConsulNode]: the backend answers marker 5, then
    marker 3; both are put on the queue, 3 after 5. *)
Lemma node_markers_not_increasing :
  indices (sent_by (watchConsulNode (watchNode "node-1") [ok_tick PNil 5; ok_tick PNil 3])
                   (fresh "c0ffee00")) = [5; 3] /\
  strictly_increasing
    (indices (sent_by (watchConsulNode (watchNode "node-1") [ok_tick PNil 5; ok_tick PNil 3])
                      (fresh "c0ffee00"))) = false.
Proof. split; vm_compute; reflexivity. Qed.

(** ** The shared watch *)

Lemma broadcast_loop_cons watchKey actionEvent t prop c :
  broadcast_loop watchKey actionEvent (t :: prop) c =
    match broadcast_iter watchKey actionEvent t c with
    | (Value (Continue _), c') => broadcast_loop watchKey actionEvent prop c'
    | (Value Return, c') => (Value Returned, c')
    | (Panic v, c') => (Panic v, c')
    end.
Proof.
  simpl. unfold mbind, task_bind, bind.
  destruct (broadcast_iter watchKey actionEvent t c) as [[[[]|]|v] c']; done.
Qed.

Lemma watchGenericBroadcast_unfold watchKey actionEvent prop initialPayload c :
  watchGenericBroadcast watchKey actionEvent prop initialPayload c =
    if bool_decide (watchKey ∈ watches c) then
      (Value Returned,
       emit (EvLog LWarning (prefixed c "Connection is already subscribed to %s")
                   [ArgStr actionEvent]) c)
    else if sendClosed c then
      (Value Returned,
       broadcast_recovered watchKey SendOnClosedChannel (broadcast_attached watchKey c))
    else
      match broadcast_loop watchKey actionEvent prop
              (broadcast_started watchKey actionEvent initialPayload c) with
      | (Value Running, c') => (Value Running, c')
      | (Value Returned, c') => (Value Returned, broadcast_stopped watchKey c')
      | (Panic v, c') => (Value Returned, broadcast_recovered watchKey v c')
      end.
Proof.
  unfold watchGenericBroadcast. task_unfold.
  destruct (bool_decide (watchKey ∈ watches c)); [done|].
  unfold defer. task_unfold. simpl.
  destruct (sendClosed c); [done|].
  fold (broadcast_attached watchKey c).
  fold (broadcast_started watchKey actionEvent initialPayload c).
  destruct (broadcast_loop _ _ _ _) as [[[|]|v] c']; done.
Qed.

Lemma on_change_sent watchKey actionEvent v ops c :
  send (snd (on_change watchKey actionEvent v ops c)) = send c \/
  exists a, v = SVAction a /\ Type' a = actionEvent /\
    send (snd (on_change watchKey actionEvent v ops c)) = send c ++ [a] /\
    fst (on_change watchKey actionEvent v ops c) = Value (Continue tt).
Proof.
  destruct v as [a|]; [|by left].
  unfold on_change. task_unfold.
  destruct (bool_decide (watchKey ∈ _)); simpl; [|by left].
  destruct (bool_decide (Type' a = actionEvent)) eqn:Hty; simpl; [|by left].
  apply bool_decide_eq_true in Hty.
  destruct (sendClosed _) eqn:Hclosed; simpl.
  - left. by frame.
  - right. exists a. frame. done.
Qed.

Lemma broadcast_loop_sent watchKey actionEvent prop : forall c,
  exists rest,
    send (snd (broadcast_loop watchKey actionEvent prop c)) = send c ++ rest /\
    rest `sublist_of` published prop /\
    Forall (fun a => Type' a = actionEvent) rest.
Proof.
  induction prop as [|t prop IH]; intros c.
  { exists []. rewrite app_nil_r. repeat split; [apply sublist_nil_l | constructor]. }
  rewrite broadcast_loop_cons.
  unfold broadcast_iter, broadcast_select. task_unfold.
  set (c1 := apply_env (while_waiting t) c).
  assert (Hc1 : send c1 = send c) by apply send_apply_env.
  unfold published. simpl. fold (published prop).
  assert (Hstop : forall l, exists rest : list Action,
             send c1 = send c ++ rest /\ rest `sublist_of` l ++ published prop /\
             Forall (fun a => Type' a = actionEvent) rest).
  { intros l. exists []. rewrite app_nil_r.
    repeat split; [done | apply sublist_nil_l | constructor]. }
  assert (Hskip : forall l, exists rest : list Action,
             send (snd (broadcast_loop watchKey actionEvent prop c1)) = send c ++ rest /\
             rest `sublist_of` l ++ published prop /\
             Forall (fun a => Type' a = actionEvent) rest).
  { intros l. destruct (IH c1) as [rest (Hs & Hsub & Hty)].
    exists rest. rewrite Hs, Hc1. repeat split; [by apply sublist_inserts_l | done]. }
  assert (Hchange : forall v, exists rest : list Action,
             send (snd (match on_change watchKey actionEvent v (before_publish t) c1 with
                        | (Value (Continue _), c') => broadcast_loop watchKey actionEvent prop c'
                        | (Value Return, c') => (Value Returned, c')
                        | (Panic p, c') => (Panic p, c')
                        end)) = send c ++ rest /\
             rest `sublist_of` match v with SVAction a => [a] | SVOther => [] end
                                 ++ published prop /\
             Forall (fun a => Type' a = actionEvent) rest).
  { intros v.
    destruct (on_change_sent watchKey actionEvent v (before_publish t) c1)
      as [Hsame | (a & -> & Hty & Hs & Hr)].
    - destruct (on_change _ _ _ _ _) as [[[[]|]|p] c'] eqn:Hoc; simpl in Hsame.
      + destruct (IH c') as [rest (Hs & Hsub & Hty)].
        exists rest. rewrite Hs, Hsame, Hc1.
        repeat split; [by apply sublist_inserts_l | done].
      + exists []. simpl. rewrite Hsame, Hc1, app_nil_r.
        repeat split; [apply sublist_nil_l | constructor].
      + exists []. simpl. rewrite Hsame, Hc1, app_nil_r.
        repeat split; [apply sublist_nil_l | constructor].
    - destruct (on_change _ _ _ _ _) as [r c'] eqn:Hoc. simpl in Hs, Hr. subst r.
      destruct (IH c') as [rest (Hs' & Hsub & Hty')].
      exists (a :: rest). rewrite Hs', Hs, Hc1, <- app_assoc.
      repeat split; [by apply sublist_skip | by constructor]. }
  destruct (destroyCh c1), (change t) as [v|]; simpl.
  - destruct (prefer_destroy t); [apply Hstop | apply Hchange].
  - apply (Hstop []).
  - apply Hchange.
  - apply (Hskip []).
Qed.

(** ** Watching a key twice *)

(** C2: when the watch key is already in the watch set, each of the three
    watch operations returns at once: the connection is left as it was but
    for one warning in the log, so no key is added, nothing is put on the
    outbound queue, and the loop (which would consume the oracle) is not
    entered. *)
Theorem duplicate_watch_is_noop (c : ConsulConnection) (key : string)
    (Hpresent : key ∈ watches c) :
  (forall actionEvent prop initialPayload,
     watchGenericBroadcast key actionEvent prop initialPayload c =
       (Value Returned,
        emit (EvLog LWarning (prefixed c "Connection is already subscribed to %s")
                    [ArgStr actionEvent]) c)) /\
  (forall action ticks, Payload' action = PString key ->
     watchConsulService action ticks c =
       (Value Returned,
        emit (EvLog LWarning (prefixed c "Connection is already subscribed to service %s")
                    [ArgStr key]) c)) /\
  (forall action ticks, Payload' action = PString key ->
     watchConsulNode action ticks c =
       (Value Returned,
        emit (EvLog LWarning (prefixed c "Connection is already subscribed to node %s")
                    [ArgStr key]) c)) /\
  (forall lvl format args,
     watches (emit (EvLog lvl format args) c) = watches c /\
     send (emit (EvLog lvl format args) c) = send c /\
     queries (trace (emit (EvLog lvl format args) c)) = queries (trace c)).
Proof.
  split; [|split; [|split]].
  - intros. rewrite watchGenericBroadcast_unfold. by rewrite bool_decide_eq_true_2.
  - intros action ticks HP. rewrite (watchConsulService_unfold _ key) by done.
    by rewrite bool_decide_eq_true_2.
  - intros action ticks HP. rewrite (watchConsulNode_unfold _ key) by done.
    by rewrite bool_decide_eq_true_2.
  - intros lvl format args. simpl. unfold queries.
    by rewrite flat_map_app, app_nil_r.
Qed.

Lemma duplicate_watch_is_noop_witness :
  watchGenericBroadcast "services" ActionType.fetchedConsulServices
      [services_tick (mkAction ActionType.fetchedConsulServices PNil 7)] PNil
      (watching "c0ffee00" ["services"]) =
    (Value Returned,
     emit (EvLog LWarning "[c0ffee00] Connection is already subscribed to %s"
                 [ArgStr ActionType.fetchedConsulServices])
          (watching "c0ffee00" ["services"])).
Proof.
  apply (proj1 (duplicate_watch_is_noop (watching "c0ffee00" ["services"]) "services"
                  ltac:(vm_compute; reflexivity))).
Defined.

(** ** Leaving a watch *)

(** C5: a watch that added its key and then leaves its loop, by returning or
    by panicking, has removed the key from the watch set when it ends;
    removing a key that is no longer there changes nothing. *)
Theorem exit_removes_watch_key (c : ConsulConnection) (key : string)
    (Hnew : key ∉ watches c) :
  (forall actionEvent prop initialPayload r c',
     watchGenericBroadcast key actionEvent prop initialPayload c = (r, c') ->
     r <> Value Running -> key ∉ watches c') /\
  (forall action ticks r c', Payload' action = PString key ->
     watchConsulService action ticks c = (r, c') ->
     r <> Value Running -> key ∉ watches c') /\
  (forall action ticks r c', Payload' action = PString key ->
     watchConsulNode action ticks c = (r, c') ->
     r <> Value Running -> key ∉ watches c') /\
  (forall c1, key ∉ watches c1 -> snd (watches_Remove key c1) = c1).
Proof.
  assert (Hgone : forall w : gset string, key ∉ w ∖ {[key]}).
  { intros w. rewrite elem_of_difference, elem_of_singleton. by intros [_ []]. }
  repeat split.
  - intros actionEvent prop initialPayload r c'.
    rewrite watchGenericBroadcast_unfold, bool_decide_eq_false_2 by done.
    destruct (sendClosed c).
    { intros [= <- <-] _. apply Hgone. }
    destruct (broadcast_loop _ _ _ _) as [[[|]|v] c1]; intros [= <- <-] Hr;
      [done | apply Hgone | apply Hgone].
  - intros action ticks r c' HP.
    rewrite (watchConsulService_unfold _ key), bool_decide_eq_false_2 by done.
    destruct (service_loop _ _ _ _) as [[[|]|v] c1]; intros [= <- <-] Hr;
      [done | apply Hgone | apply Hgone].
  - intros action ticks r c' HP.
    rewrite (watchConsulNode_unfold _ key), bool_decide_eq_false_2 by done.
    destruct (node_loop _ _ _ _) as [[[|]|v] c1]; intros [= <- <-] Hr;
      [done | apply Hgone | apply Hgone].
  - apply watches_Remove_absent.
Qed.

Lemma exit_removes_watch_key_witness :
  "web" ∉ watches (snd (watchConsulService (watchService "web") [teardown_tick]
                          (fresh "c0ffee00"))).
Proof.
  eapply (proj1 (proj2 (exit_removes_watch_key (fresh "c0ffee00") "web"
                          ltac:(vm_compute; discriminate)))
            (watchService "web") [teardown_tick]).
  - reflexivity.
  - apply surjective_pairing.
  - vm_compute. discriminate.
Defined.

(** ** Sending on a closed queue *)

(** C4: [watchGenericBroadcast] recovers from every panic of its body, so it
    never ends in a panic.  The per-entity loops defer no recovery: at the
    teardown race, the panic of the send on the closed queue leaves
    [watchConsulService] and [watchConsulNode] (after their deferred removal
    of the key). *)
Theorem closed_queue_send_escapes_entity_loops :
  (forall watchKey actionEvent prop initialPayload c,
     exists st,
       fst (watchGenericBroadcast watchKey actionEvent prop initialPayload c) = Value st) /\
  fst (watchConsulService (watchService "web") [teardown_tick] (fresh "c0ffee00"))
    = Panic SendOnClosedChannel /\
  fst (watchConsulNode (watchNode "node-1") [teardown_tick] (fresh "c0ffee00"))
    = Panic SendOnClosedChannel.
Proof.
  split; [|split; vm_compute; reflexivity].
  intros watchKey actionEvent prop initialPayload c.
  rewrite watchGenericBroadcast_unfold.
  destruct (bool_decide _); [by eexists|].
  destruct (sendClosed c); [by eexists|].
  destruct (broadcast_loop _ _ _ _) as [[[|]|p] c']; by eexists.
Qed.

(** ** The initial snapshot *)

(** C6 (as amended): when the key is not yet watched and the outbound queue
    is open, the attach puts exactly one action on the queue before its loop
    first waits: the initial payload, with the expected type and index 0.
    Whatever the loop forwards later comes after it, is of the expected type,
    and is taken in order from what the property publishes. *)
Theorem attach_sends_initial_snapshot (c : ConsulConnection)
    (watchKey actionEvent : string) (initialPayload : Payload)
    (Hnew : watchKey ∉ watches c) (Hopen : sendClosed c = false) :
  watchGenericBroadcast watchKey actionEvent [] initialPayload c =
    (Value Running, broadcast_started watchKey actionEvent initialPayload c) /\
  send (broadcast_started watchKey actionEvent initialPayload c) =
    send c ++ [mkAction actionEvent initialPayload 0] /\
  (forall prop, exists rest,
     send (snd (watchGenericBroadcast watchKey actionEvent prop initialPayload c)) =
       send c ++ mkAction actionEvent initialPayload 0 :: rest /\
     rest `sublist_of` published prop /\
     Forall (fun a => Type' a = actionEvent) rest).
Proof.
  split; [|split; [done|]].
  - by rewrite watchGenericBroadcast_unfold, bool_decide_eq_false_2, Hopen.
  - intros prop.
    rewrite watchGenericBroadcast_unfold, bool_decide_eq_false_2, Hopen by done.
    destruct (broadcast_loop_sent watchKey actionEvent prop
                (broadcast_started watchKey actionEvent initialPayload c))
      as [rest (Hs & Hsub & Hty)].
    exists rest. split; [|done].
    destruct (broadcast_loop _ _ _ _) as [[[|]|v] c']; simpl in *;
      by rewrite Hs, <- app_assoc.
Qed.

Lemma attach_sends_initial_snapshot_witness :
  watchGenericBroadcast "services" ActionType.fetchedConsulServices [] (PArray [])
      (fresh "c0ffee00") =
    (Value Running,
     broadcast_started "services" ActionType.fetchedConsulServices (PArray [])
       (fresh "c0ffee00")).
Proof.
  apply (proj1 (attach_sends_initial_snapshot (fresh "c0ffee00") "services"
                  ActionType.fetchedConsulServices (PArray [])
                  ltac:(vm_compute; discriminate) ltac:(reflexivity))).
Defined.

(** C6 fails when the outbound queue is already closed: the key is not
    watched, the attach returns, and nothing has been put on the queue. *)
Lemma attach_on_closed_queue_sends_nothing :
("services" ∉ watches (set_sendClosed true (fresh "c0ffee00"))) /\
  fst (watchGenericBroadcast "services" ActionType.fetchedConsulServices [] (PArray [])
         (set_sendClosed true (fresh "c0ffee00"))) = Value Returned /\
  send (snd (watchGenericBroadcast "services" ActionType.fetchedConsulServices []
               (PArray []) (set_sendClosed true (fresh "c0ffee00")))) = [].
Proof. split; [vm_compute; discriminate | split; vm_compute; reflexivity]. Qed.

(** ** Query errors *)

Lemma queries_app tr1 tr2 : queries (tr1 ++ tr2) = queries tr1 ++ queries tr2.
Proof. unfold queries. by rewrite flat_map_app. Qed.

Lemma sleeps_app tr1 tr2 : sleeps (tr1 ++ tr2) = sleeps tr1 ++ sleeps tr2.
Proof. unfold sleeps. by rewrite flat_map_app. Qed.

Lemma service_iter_error serviceID q t c err :
  response t = QueryErr err ->
  destroyCh (apply_env (before_select t) c) = false ->
  service_iter serviceID q t c =
    (Value (Continue q),
     emit (EvSleep (10 * Second))
       (emit (service_error_log c err)
          (emit (EvQuery HealthService serviceID q) (apply_env (env_until_check t) c)))).
Proof.
  intros Herr Hlive. rewrite service_iter_unfold. cbv zeta.
  rewrite Hlive, Herr. unfold env_until_check.
  by rewrite apply_env_emit, apply_env_app.
Qed.

Lemma node_iter_error nodeID q t c err :
  response t = QueryErr err ->
  destroyCh (apply_env (before_select t) c) = false ->
  node_iter nodeID q t c =
    (Value (Continue q),
     emit (EvSleep (10 * Second))
       (emit (node_error_log c err)
          (emit (EvQuery HealthNode nodeID q) (apply_env (env_until_check t) c)))).
Proof.
  intros Herr Hlive. rewrite node_iter_unfold. cbv zeta.
  rewrite Hlive, Herr. unfold env_until_check.
  by rewrite apply_env_emit, apply_env_app.
Qed.

Lemma undisturbed_alive t c :
  undisturbed t = true -> destroyCh c = false ->
  destroyCh (apply_env (before_select t) c) = false /\
  destroyCh (apply_env (env_until_check t) c) = false.
Proof.
  unfold undisturbed, env_until_check. rewrite !forallb_app.
  intros [H1 [H2 _]%andb_prop]%andb_prop Hc.
  rewrite apply_env_app, !destroyCh_apply_env by done. done.
Qed.

Lemma service_loop_errors serviceID q ticks : forall c,
  forallb is_error ticks = true -> forallb undisturbed ticks = true ->
  destroyCh c = false ->
  exists c', service_loop serviceID q ticks c = (Value Running, c') /\
             error_run HealthService serviceID q ticks c c'.
Proof.
  induction ticks as [|t ticks IH]; intros c Herr Hund Hc.
  { exists c. split; [done|]. split; simpl; by rewrite ?app_nil_r. }
  simpl in Herr, Hund.
  apply andb_prop in Herr as [Ht Herr]. apply andb_prop in Hund as [Hu Hund].
  unfold is_error in Ht. destruct (response t) as [err|] eqn:Hresp; [|done].
  destruct (undisturbed_alive t c Hu Hc) as [Hlive Hlive'].
  rewrite service_loop_cons, (service_iter_error _ _ _ _ err) by done.
  match goal with |- context [service_loop _ _ _ ?c1] =>
    destruct (IH c1 Herr Hund Hlive') as [c' [Hrun [Hs Hw Ha Hq Hsl]]] end.
  exists c'. split; [done|]. split.
  - rewrite Hs. simpl. apply send_apply_env.
  - rewrite Hw. simpl. by rewrite !apply_env_emit, apply_env_app.
  - done.
  - rewrite Hq. simpl. rewrite trace_apply_env, !queries_app. simpl.
    by rewrite !app_nil_r, <- app_assoc.
  - rewrite Hsl. simpl. rewrite trace_apply_env, !sleeps_app. simpl.
    by rewrite !app_nil_r, <- app_assoc.
Qed.

Lemma node_loop_errors nodeID q ticks : forall c,
  forallb is_error ticks = true -> forallb undisturbed ticks = true ->
  destroyCh c = false ->
  exists c', node_loop nodeID q ticks c = (Value Running, c') /\
             error_run HealthNode nodeID q ticks c c'.
Proof.
  induction ticks as [|t ticks IH]; intros c Herr Hund Hc.
  { exists c. split; [done|]. split; simpl; by rewrite ?app_nil_r. }
  simpl in Herr, Hund.
  apply andb_prop in Herr as [Ht Herr]. apply andb_prop in Hund as [Hu Hund].
  unfold is_error in Ht. destruct (response t) as [err|] eqn:Hresp; [|done].
  destruct (undisturbed_alive t c Hu Hc) as [Hlive Hlive'].
  rewrite node_loop_cons, (node_iter_error _ _ _ _ err) by done.
  match goal with |- context [node_loop _ _ _ ?c1] =>
    destruct (IH c1 Herr Hund Hlive') as [c' [Hrun [Hs Hw Ha Hq Hsl]]] end.
  exists c'. split; [done|]. split.
  - rewrite Hs. simpl. apply send_apply_env.
  - rewrite Hw. simpl. by rewrite !apply_env_emit, apply_env_app.
  - done.
  - rewrite Hq. simpl. rewrite trace_apply_env, !queries_app. simpl.
    by rewrite !app_nil_r, <- app_assoc.
  - rewrite Hsl. simpl. rewrite trace_apply_env, !sleeps_app. simpl.
    by rewrite !app_nil_r, <- app_assoc.
Qed.

(** C7: a query error does not end a per-entity loop.  The iteration logs
    the error, sleeps 10 s and goes on with the same marker; the loop itself
    changes neither the watch set nor the outbound queue.  A run of errors,
    with no destroy signal, leaves the loop running, having asked the
    backend once per iteration. *)
Theorem query_error_is_not_terminal (id : string) (q : QueryOptions) (c : ConsulConnection)
    (Halive : destroyCh c = false) :
  (forall t err,
     response t = QueryErr err ->
     destroyCh (apply_env (before_select t) c) = false ->
     (exists c', service_iter id q t c = (Value (Continue q), c') /\
        watches c' = watches (apply_env (env_until_check t) c) /\
        send c' = send c /\
        trace c' = trace c ++ [EvQuery HealthService id q; service_error_log c err;
                               EvSleep (10 * Second)]) /\
     (exists c', node_iter id q t c = (Value (Continue q), c') /\
        watches c' = watches (apply_env (env_until_check t) c) /\
        send c' = send c /\
        trace c' = trace c ++ [EvQuery HealthNode id q; node_error_log c err;
                               EvSleep (10 * Second)])) /\
  (forall ticks,
     forallb is_error ticks = true -> forallb undisturbed ticks = true ->
     (exists c', service_loop id q ticks c = (Value Running, c') /\
                 error_run HealthService id q ticks c c') /\
     (exists c', node_loop id q ticks c = (Value Running, c') /\
                 error_run HealthNode id q ticks c c')) /\
  (forall action ticks,
     Payload' action = PString id -> id ∉ watches c ->
     forallb is_error ticks = true -> forallb undisturbed ticks = true ->
     fst (watchConsulService action ticks c) = Value Running /\
     fst (watchConsulNode action ticks c) = Value Running).
Proof.
  split; [|split].
  - intros t err Herr Hlive. split.
    + eexists. split; [by apply service_iter_error|].
      simpl. rewrite send_apply_env, trace_apply_env, <- !app_assoc. done.
    + eexists. split; [by apply node_iter_error|].
      simpl. rewrite send_apply_env, trace_apply_env, <- !app_assoc. done.
  - intros ticks Herr Hund. split.
    + by apply service_loop_errors.
    + by apply node_loop_errors.
  - intros action ticks HP Hnew Herr Hund. split.
    + rewrite (watchConsulService_unfold _ id), bool_decide_eq_false_2 by done.
      destruct (service_loop_errors id (mkQueryOptions 1 0) ticks (service_started id c))
        as [c' [-> _]]; done.
    + rewrite (watchConsulNode_unfold _ id), bool_decide_eq_false_2 by done.
      destruct (node_loop_errors id (mkQueryOptions 1 0) ticks (node_started id c))
        as [c' [-> _]]; done.
Qed.

Lemma query_error_is_not_terminal_witness :
  fst (watchConsulService (watchService "web")
         [err_tick "connection refused"; err_tick "connection refused"]
         (fresh "c0ffee00")) = Value Running.
Proof.
  apply (proj2 (proj2 (query_error_is_not_terminal "web" (mkQueryOptions 1 0)
                         (fresh "c0ffee00") eq_refl))
           (watchService "web")
           [err_tick "connection refused"; err_tick "connection refused"]
           eq_refl ltac:(vm_compute; discriminate) eq_refl eq_refl).
Defined.

(** ** Markers that do not advance *)

Lemma service_loop_stale serviceID ticks : forall q c,
  forallb (stale q) ticks = true ->
  exists n,
    (n <= length ticks)%nat /\
    send (snd (service_loop serviceID q ticks c)) = send c /\
    queries (trace (snd (service_loop serviceID q ticks c))) =
      queries (trace c) ++ repeat (HealthService, serviceID, q) n.
Proof.
  induction ticks as [|t ticks IH]; intros q c Hstale.
  { exists 0%nat. simpl. by rewrite app_nil_r. }
  simpl in Hstale. apply andb_prop in Hstale as [Ht Hstale].
  rewrite service_loop_cons, service_iter_unfold. cbv zeta.
  destruct (destroyCh _).
  { exists 0%nat. frame. rewrite app_nil_r. repeat split; [lia|done..]. }
  unfold stale in Ht.
  assert (Hone : forall tr, queries ((tr ++ [EvQuery HealthService serviceID q])) =
                            queries tr ++ repeat (HealthService, serviceID, q) 1).
  { intros tr. by rewrite queries_app. }
  destruct (response t) as [err|service i].
  { match goal with |- context [service_loop _ ?q' _ ?c'] =>
      destruct (IH q' c' Hstale) as [n (Hn & Hs & Hq)] end.
    exists (S n). rewrite Hs, Hq. frame. unfold service_error_log.
    rewrite !queries_app. simpl. rewrite !app_nil_r, <- app_assoc.
    repeat split; [lia|done..]. }
  destruct (bool_decide _).
  2:{ exists 1%nat. frame. rewrite Hone. repeat split; [lia|done..]. }
  apply N.leb_le in Ht.
  destruct (WaitIndex q <? i) eqn:Hlt; [apply N.ltb_lt in Hlt; lia|].
  match goal with |- context [service_loop _ ?q' _ ?c'] =>
    destruct (IH q' c' Hstale) as [n (Hn & Hs & Hq)] end.
  exists (S n). rewrite Hs, Hq. frame. rewrite Hone, <- app_assoc.
  repeat split; [lia|done..].
Qed.

Lemma calm_inv t :
  calm t = true -> before_select t = [] /\ during_query t = [] /\ before_send t = [].
Proof.
  unfold calm. by destruct (before_select t), (during_query t), (before_send t).
Qed.

(** With the key watched, no destroy signal and nobody interfering, a loop
    whose backend never gets past the marker stays in the loop and asks the
    backend once per iteration. *)
Lemma service_loop_idle serviceID q ticks : forall c,
  forallb (stale q) ticks = true -> forallb calm ticks = true ->
  destroyCh c = false -> serviceID ∈ watches c ->
  exists c',
    service_loop serviceID q ticks c = (Value Running, c') /\
    send c' = send c /\
    queries (trace c') = queries (trace c) ++ repeat (HealthService, serviceID, q) (length ticks).
Proof.
  induction ticks as [|t ticks IH]; intros c Hstale Hcalm Halive Hwatched.
  { exists c. simpl. by rewrite app_nil_r. }
  simpl in Hstale, Hcalm.
  apply andb_prop in Hstale as [Ht Hstale]. apply andb_prop in Hcalm as [Hc Hcalm].
  apply calm_inv in Hc as (Hb & Hd & Hs).
  rewrite service_loop_cons, service_iter_unfold. cbv zeta.
  rewrite Hb, Hd, Hs. simpl. rewrite Halive.
  unfold stale in Ht. destruct (response t) as [err|service i].
  { match goal with |- context [service_loop _ _ _ ?c1] =>
      destruct (IH c1 Hstale Hcalm Halive Hwatched) as [c' (Hrun & Hsend & Hq)] end.
    exists c'. rewrite Hrun, Hsend, Hq. simpl. unfold service_error_log.
    rewrite !queries_app. simpl. by rewrite !app_nil_r, <- app_assoc. }
  rewrite bool_decide_eq_true_2 by done.
  apply N.leb_le in Ht.
  destruct (WaitIndex q <? i) eqn:Hlt; [apply N.ltb_lt in Hlt; lia|].
  match goal with |- context [service_loop _ _ _ ?c1] =>
    destruct (IH c1 Hstale Hcalm Halive Hwatched) as [c' (Hrun & Hsend & Hq)] end.
  exists c'. rewrite Hrun, Hsend, Hq. simpl.
  rewrite !queries_app. simpl. by rewrite <- app_assoc.
Qed.

(** C10: [watchConsulService] starts from marker 1 and publishes only on a
    marker past the local one.  Against a backend whose markers are all at
    most 1 it puts nothing on the outbound queue, and every query it makes
    still carries marker 1; when nothing stops the loop it makes one query
    per iteration. *)
Theorem service_marker_starts_at_one (action : Action) (serviceID : string)
    (ticks : list Tick) (c : ConsulConnection)
    (HP : Payload' action = PString serviceID)
    (Hstale : forallb (stale (mkQueryOptions 1 0)) ticks = true) :
  send (snd (watchConsulService action ticks c)) = send c /\
  (exists n, (n <= length ticks)%nat /\
     queries (trace (snd (watchConsulService action ticks c))) =
       queries (trace c) ++ repeat (HealthService, serviceID, mkQueryOptions 1 0) n) /\
  (serviceID ∉ watches c -> destroyCh c = false -> forallb calm ticks = true ->
     fst (watchConsulService action ticks c) = Value Running /\
     queries (trace (snd (watchConsulService action ticks c))) =
       queries (trace c) ++
       repeat (HealthService, serviceID, mkQueryOptions 1 0) (length ticks)).
Proof.
  rewrite (watchConsulService_unfold _ serviceID) by done.
  destruct (bool_decide (serviceID ∈ watches c)) eqn:Hhas.
  { apply bool_decide_eq_true in Hhas. split; [done|]. split; [|done].
    exists 0%nat. simpl. rewrite queries_app. simpl. split; [lia|done]. }
  clear Hhas. split; [|split].
  - destruct (service_loop_stale serviceID ticks (mkQueryOptions 1 0)
                (service_started serviceID c) Hstale) as [n (_ & Hs & _)].
    destruct (service_loop _ _ _ _) as [[[|]|v] c']; simpl in *; by rewrite Hs.
  - destruct (service_loop_stale serviceID ticks (mkQueryOptions 1 0)
                (service_started serviceID c) Hstale) as [n (Hn & _ & Hq)].
    exists n. split; [done|].
    destruct (service_loop _ _ _ _) as [[[|]|v] c']; simpl in *;
      rewrite ?queries_app, Hq, ?queries_app; simpl; by rewrite ?app_nil_r.
  - intros Hnew Halive Hcalm.
    destruct (service_loop_idle serviceID (mkQueryOptions 1 0) ticks
                (service_started serviceID c) Hstale Hcalm Halive)
      as [c' (-> & _ & Hq)].
    { simpl. apply elem_of_union_l, elem_of_singleton. done. }
    split; [done|]. simpl. rewrite Hq. simpl.
    rewrite queries_app. simpl. by rewrite app_nil_r.
Qed.

Lemma service_marker_starts_at_one_witness :
  send (snd (watchConsulService (watchService "web")
               [ok_tick (PArray []) 1; ok_tick (PArray []) 0; ok_tick (PArray []) 1]
               (fresh "c0ffee00"))) = [].
Proof.
  apply (proj1 (service_marker_starts_at_one (watchService "web") "web"
                  [ok_tick (PArray []) 1; ok_tick (PArray []) 0; ok_tick (PArray []) 1]
                  (fresh "c0ffee00") eq_refl eq_refl)).
Defined.

(** ** Spacing *)

(** C3 (as amended): in an iteration whose query succeeds with the key still
    watched, [watchConsulNode] skips the publish exactly when the returned
    marker equals the local one, and then sleeps 5 s before it goes on;
    every iteration of [watchConsulNode] that goes on after a successful
    query ends with that sleep.  [watchConsulService] skips the publish when
    the returned marker is not past the local one, the iteration leaving
    only its query in the trace; its 5 s sleep follows every publish. *)
Theorem idle_iteration_spacing (id : string) (q : QueryOptions) (t : Tick)
    (c : ConsulConnection) (v : Payload) (i : N)
    (Hok : response t = QueryOk v i)
    (Halive : destroyCh (apply_env (before_select t) c) = false)
    (Hwatched : id ∈ watches (apply_env (env_until_check t) c)) :
  (i = WaitIndex q ->
     node_iter id q t c =
       (Value (Continue q),
        emit (EvSleep (5 * Second))
          (emit (EvQuery HealthNode id q) (apply_env (env_until_check t) c)))) /\
  (forall q' c', node_iter id q t c = (Value (Continue q'), c') ->
     exists tr, trace c' = tr ++ [EvSleep (5 * Second)]) /\
  (i <= WaitIndex q ->
     service_iter id q t c =
       (Value (Continue q),
        emit (EvQuery HealthService id q) (apply_env (env_until_check t) c))) /\
  (forall q' c', WaitIndex q < i -> service_iter id q t c = (Value (Continue q'), c') ->
     exists tr, trace c' = tr ++ [EvSleep (5 * Second)]).
Proof.
  unfold env_until_check in *.
  rewrite apply_env_app in *.
  split; [|split; [|split]].
  - intros ->. rewrite node_iter_unfold. cbv zeta.
    rewrite Halive, Hok, apply_env_emit, bool_decide_eq_true_2, N.eqb_refl; done.
  - intros q' c'. rewrite node_iter_unfold. cbv zeta.
    rewrite Halive, Hok, apply_env_emit, bool_decide_eq_true_2 by done.
    destruct (i =? WaitIndex q); [|destruct (sendClosed _)]; intros [= <- <-]; by eexists.
  - intros Hle. rewrite service_iter_unfold. cbv zeta.
    rewrite Halive, Hok, apply_env_emit, bool_decide_eq_true_2 by done.
    destruct (WaitIndex q <? i) eqn:Hlt; [apply N.ltb_lt in Hlt; lia|done].
  - intros q' c' Hlt. rewrite service_iter_unfold. cbv zeta.
    rewrite Halive, Hok, apply_env_emit, bool_decide_eq_true_2 by done.
    apply N.ltb_lt in Hlt. rewrite Hlt.
    destruct (sendClosed _); intros [= <- <-]; by eexists.
Qed.

Lemma idle_iteration_spacing_witness :
  node_iter "node-1" (mkQueryOptions 7 (10 * Second)) (ok_tick PNil 7)
      (watching "c0ffee00" ["node-1"]) =
    (Value (Continue (mkQueryOptions 7 (10 * Second))),
     emit (EvSleep (5 * Second))
       (emit (EvQuery HealthNode "node-1" (mkQueryOptions 7 (10 * Second)))
          (watching "c0ffee00" ["node-1"]))).
Proof.
  apply (proj1 (idle_iteration_spacing "node-1" (mkQueryOptions 7 (10 * Second))
                  (ok_tick PNil 7) (watching "c0ffee00" ["node-1"]) PNil 7
                  eq_refl eq_refl ltac:(vm_compute; reflexivity)) eq_refl).
Defined.

(** C3 fails on both loops.  [watchConsulService], key watched, local marker
    7: the backend answers marker 7 twice; the loop queries twice in a row
    and never sleeps.  [watchConsulNode], local marker 7: the backend answers
    marker 3, which is published. *)
Lemma idle_service_iteration_does_not_sleep :
  fst (service_loop "web" (mkQueryOptions 7 (10 * Second)) [ok_tick PNil 7; ok_tick PNil 7]
         (watching "c0ffee00" ["web"])) = Value Running /\
  trace (snd (service_loop "web" (mkQueryOptions 7 (10 * Second))
                [ok_tick PNil 7; ok_tick PNil 7] (watching "c0ffee00" ["web"]))) =
    [EvQuery HealthService "web" (mkQueryOptions 7 (10 * Second));
     EvQuery HealthService "web" (mkQueryOptions 7 (10 * Second))] /\
  send (snd (node_iter "node-1" (mkQueryOptions 7 (10 * Second)) (ok_tick PNil 3)
               (watching "c0ffee00" ["node-1"]))) =
    [mkAction ActionType.fetchedConsulNode PNil 3].
Proof. repeat split; vm_compute; reflexivity. Qed.

(** ** The outbound delivery loop *)

Lemma writes_app tr1 tr2 : writes (tr1 ++ tr2) = writes tr1 ++ writes tr2.
Proof. unfold writes. by rewrite flat_map_app. Qed.

Lemma writes_pump_events c queue : writes (pump_events c queue) = frames queue.
Proof.
  induction queue as [|[a [err|]] queue IH]; [done| |]; simpl; by rewrite <- IH.
Qed.

Lemma writePump_loop_trace queue closed : forall c,
  exists st c',
    writePump_loop queue closed c = (Value st, c') /\
    st = match closed with Some _ => Returned | None => Running end /\
    trace c' = trace c ++ pump_events c queue ++
               match closed with Some r => close_events c r | None => [] end.
Proof.
  induction queue as [|[a r] queue IH]; intros c.
  - destruct closed as [[err|]|]; do 2 eexists; (split; [reflexivity|]);
      simpl; by rewrite ?app_nil_r, <- ?app_assoc.
  - simpl. task_unfold.
    destruct r as [err|].
    + match goal with |- context [writePump_loop _ _ ?c1] =>
        destruct (IH c1) as (st & c' & Hrun & Hst & Htr) end.
      exists st, c'. rewrite Hrun, Htr. simpl. by rewrite <- !app_assoc.
    + match goal with |- context [writePump_loop _ _ ?c1] =>
        destruct (IH c1) as (st & c' & Hrun & Hst & Htr) end.
      exists st, c'. rewrite Hrun, Htr. simpl. by rewrite <- !app_assoc.
Qed.

(** C8: [writePump] writes every action it receives from the outbound queue
    to the socket, in the order of arrival and whatever the earlier writes
    answered; a failed write adds one line to the log and the loop goes on.
    When the queue is closed it writes the close frame, closes the socket and
    returns; as long as the queue is open it stays in its loop. *)
Theorem writePump_delivers_in_order (queue : list (Action * WriteResult))
    (c : ConsulConnection) :
  (forall r, exists c',
     writePump queue (Some r) c = (Value Returned, c') /\
     trace c' = trace c ++ pump_events c queue ++ close_events c r ++ [EvSocketClose] /\
     writes (trace c') = writes (trace c) ++ frames queue ++ [(CloseMessage, r)]) /\
  (exists c',
     writePump queue None c = (Value Running, c') /\
     trace c' = trace c ++ pump_events c queue /\
     writes (trace c') = writes (trace c) ++ frames queue).
Proof.
  split.
  - intros r.
    destruct (writePump_loop_trace queue (Some r) c) as (st & c' & Hrun & -> & Htr).
    eexists. unfold writePump, defer. rewrite Hrun. task_unfold. simpl.
    split; [reflexivity|]. simpl. rewrite Htr, <- !app_assoc. split; [done|].
    rewrite !writes_app, writes_pump_events. by destruct r.
  - destruct (writePump_loop_trace queue None c) as (st & c' & Hrun & -> & Htr).
    exists c'. unfold writePump, defer. rewrite Hrun, Htr, app_nil_r.
    split; [done|]. split; [done|].
    by rewrite writes_app, writes_pump_events.
Qed.

(** ** Payloads that are not strings *)

(** C9: an action of type watchConsulService, unwatchConsulService,
    watchConsulNode or unwatchConsulNode whose payload is not a string
    panics on the type assertion.  For the two unwatch types the panic is in
    [process] itself, after its debug line; for the two watch types it is in
    the goroutine that [process] starts, before anything is logged. *)
Theorem non_string_payload_faults (action : Action) (c : ConsulConnection)
    (Hnot : forall s, Payload' action <> PString s) :
  (Type' action = ActionType.unwatchConsulService \/
   Type' action = ActionType.unwatchConsulNode ->
     process action c = (Panic (InterfaceConversion "string"),
                         emit (processing_log c action) c)) /\
  (Type' action = ActionType.watchConsulService ->
     process action c = (Value [GoWatchConsulService action],
                         emit (processing_log c action) c) /\
     forall prop ticks c1,
       go (GoWatchConsulService action) prop ticks c1 =
         (Panic (InterfaceConversion "string"), c1)) /\
  (Type' action = ActionType.watchConsulNode ->
     process action c = (Value [GoWatchConsulNode action],
                         emit (processing_log c action) c) /\
     forall prop ticks c1,
       go (GoWatchConsulNode action) prop ticks c1 =
         (Panic (InterfaceConversion "string"), c1)).
Proof.
  destruct action as [ty p i]. simpl in *.
  assert (Hassert : forall c1 : ConsulConnection,
            assert_string p c1 = (Panic (InterfaceConversion "string"), c1)).
  { intros c1. destruct p; try done. by destruct (Hnot s). }
  split; [|split].
  - intros [-> | ->]; unfold process, processing_log; task_unfold; simpl;
      by rewrite Hassert.
  - intros ->. split; [done|].
    intros prop ticks c1. simpl. unfold watchConsulService. task_unfold. simpl.
    by rewrite Hassert.
  - intros ->. split; [done|].
    intros prop ticks c1. simpl. unfold watchConsulNode. task_unfold. simpl.
    by rewrite Hassert.
Qed.

Lemma non_string_payload_faults_witness :
  process (mkAction ActionType.unwatchConsulService (PNumber 42) 0) (fresh "c0ffee00") =
    (Panic (InterfaceConversion "string"),
     emit (processing_log (fresh "c0ffee00")
             (mkAction ActionType.unwatchConsulService (PNumber 42) 0))
          (fresh "c0ffee00")).
Proof.
  apply (proj1 (non_string_payload_faults
                  (mkAction ActionType.unwatchConsulService (PNumber 42) 0)
                  (fresh "c0ffee00") ltac:(intros s; discriminate))).
  left. reflexivity.
Defined.

(** * Further properties of the watches *)

(** ** The destroy signal *)

Lemma destroyCh_stays ops c : destroyCh c = true -> destroyCh (apply_env ops c) = true.
Proof.
  revert c. induction ops as [|o ops IH]; intros c H; [done|].
  simpl. apply IH. by destruct o.
Qed.

(** X1: a per-entity loop that reaches its [select] on a connection whose
    destroy signal is up returns there: it asks the backend nothing and
    sends nothing.  A per-entity watch started on such a connection ends
    the same way, with its key removed again. *)
Theorem destroy_stops_entity_watch (id : string) (q : QueryOptions) (t : Tick)
    (ticks : list Tick) (c : ConsulConnection) (Hdestroyed : destroyCh c = true) :
  service_loop id q (t :: ticks) c = (Value Returned, apply_env (before_select t) c) /\
  node_loop id q (t :: ticks) c = (Value Returned, apply_env (before_select t) c) /\
  (forall action, Payload' action = PString id -> id ∉ watches c ->
     fst (watchConsulService action (t :: ticks) c) = Value Returned /\
     send (snd (watchConsulService action (t :: ticks) c)) = send c /\
     queries (trace (snd (watchConsulService action (t :: ticks) c))) = queries (trace c) /\
     (id ∉ watches (snd (watchConsulService action (t :: ticks) c))) /\
     fst (watchConsulNode action (t :: ticks) c) = Value Returned /\
     send (snd (watchConsulNode action (t :: ticks) c)) = send c /\
     queries (trace (snd (watchConsulNode action (t :: ticks) c))) = queries (trace c) /\
     id ∉ watches (snd (watchConsulNode action (t :: ticks) c))).
Proof.
  assert (Hs : forall c0, destroyCh c0 = true ->
            service_loop id q (t :: ticks) c0 = (Value Returned, apply_env (before_select t) c0)).
  { intros c0 H0. rewrite service_loop_cons, service_iter_unfold. cbv zeta.
    by rewrite destroyCh_stays. }
  assert (Hn : forall c0, destroyCh c0 = true ->
            node_loop id q (t :: ticks) c0 = (Value Returned, apply_env (before_select t) c0)).
  { intros c0 H0. rewrite node_loop_cons, node_iter_unfold. cbv zeta.
    by rewrite destroyCh_stays. }
  assert (Hgone : forall w : gset string, id ∉ w ∖ {[id]}).
  { intros w. rewrite elem_of_difference, elem_of_singleton. by intros [_ []]. }
  split; [by apply Hs|]. split; [by apply Hn|].
  intros action HP Hnew.
  rewrite (watchConsulService_unfold _ id), (watchConsulNode_unfold _ id) by done.
  rewrite bool_decide_eq_false_2 by done.
  rewrite service_loop_cons, service_iter_unfold, node_loop_cons, node_iter_unfold.
  cbv zeta. rewrite !destroyCh_stays by done. simpl.
  rewrite !send_apply_env, !trace_apply_env. simpl.
  rewrite !queries_app. simpl. rewrite !app_nil_r.
  repeat split; done || apply Hgone.
Qed.

Lemma destroy_stops_entity_watch_witness :
  fst (watchConsulService (watchService "web") [ok_tick PNil 9; ok_tick PNil 12]
         (set_destroyCh true (fresh "c0ffee00"))) = Value Returned.
Proof.
  apply (proj2 (proj2 (destroy_stops_entity_watch "web" (mkQueryOptions 1 0)
                         (ok_tick PNil 9) [ok_tick PNil 12]
                         (set_destroyCh true (fresh "c0ffee00")) eq_refl))
           (watchService "web") eq_refl ltac:(vm_compute; discriminate)).
Defined.

(** ** Unwatching *)

(** X2: when the key has left the watch set by the time a query returns, a
    per-entity loop returns without publishing the answer, whatever its
    marker, and asks the backend nothing more. *)
Theorem unwatched_entity_is_not_published (id : string) (q : QueryOptions) (t : Tick)
    (ticks : list Tick) (c : ConsulConnection) (v : Payload) (i : N)
    (Hok : response t = QueryOk v i)
    (Halive : destroyCh (apply_env (before_select t) c) = false)
    (Hgone : id ∉ watches (apply_env (env_until_check t) c)) :
  (exists c', service_loop id q (t :: ticks) c = (Value Returned, c') /\
     send c' = send c /\
     queries (trace c') = queries (trace c) ++ [(HealthService, id, q)]) /\
  (exists c', node_loop id q (t :: ticks) c = (Value Returned, c') /\
     send c' = send c /\
     queries (trace c') = queries (trace c) ++ [(HealthNode, id, q)]).
Proof.
  unfold env_until_check in Hgone. rewrite apply_env_app in Hgone.
  split.
  - rewrite service_loop_cons, service_iter_unfold. cbv zeta.
    rewrite Halive, Hok, apply_env_emit, bool_decide_eq_false_2 by done.
    eexists. split; [reflexivity|]. simpl.
    by rewrite !send_apply_env, !trace_apply_env, queries_app.
  - rewrite node_loop_cons, node_iter_unfold. cbv zeta.
    rewrite Halive, Hok, apply_env_emit, bool_decide_eq_false_2 by done.
    eexists. split; [reflexivity|]. simpl.
    by rewrite !send_apply_env, !trace_apply_env, queries_app.
Qed.

Lemma unwatched_entity_is_not_published_witness :
  exists c',
    node_loop "node-1" (mkQueryOptions 1 0)
      [mkTick [] (QueryOk PNil 40) [OpWatchRemove "node-1"] []; ok_tick PNil 41]
      (watching "c0ffee00" ["node-1"]) = (Value Returned, c') /\
    send c' = send (watching "c0ffee00" ["node-1"]) /\
    queries (trace c') =
      queries (trace (watching "c0ffee00" ["node-1"])) ++
      [(HealthNode, "node-1", mkQueryOptions 1 0)].
Proof.
  apply (proj2 (unwatched_entity_is_not_published "node-1" (mkQueryOptions 1 0)
                  (mkTick [] (QueryOk PNil 40) [OpWatchRemove "node-1"] [])
                  [ok_tick PNil 41] (watching "c0ffee00" ["node-1"]) PNil 40
                  eq_refl eq_refl ltac:(vm_compute; discriminate))).
Defined.

(** ** What is published *)

Lemma service_loop_content serviceID ticks : forall q c,
  exists new,
    send (snd (service_loop serviceID q ticks c)) = send c ++ new /\
    map content new `sublist_of` answers ticks /\
    Forall (fun a => Type' a = ActionType.fetchedConsulService) new.
Proof.
  induction ticks as [|t ticks IH]; intros q c.
  { exists []. rewrite app_nil_r. repeat split; [apply sublist_nil_l | constructor]. }
  assert (Hnil : forall c0 l, send c0 = send c ->
            exists new, send c0 = send c ++ new /\
              map content new `sublist_of` l /\
              Forall (fun a => Type' a = ActionType.fetchedConsulService) new).
  { intros c0 l H0. exists []. rewrite app_nil_r.
    repeat split; [done | apply sublist_nil_l | constructor]. }
  assert (Hgo : forall q0 c0 l, send c0 = send c ->
            exists new, send (snd (service_loop serviceID q0 ticks c0)) = send c ++ new /\
              map content new `sublist_of` l ++ answers ticks /\
              Forall (fun a => Type' a = ActionType.fetchedConsulService) new).
  { intros q0 c0 l H0. destruct (IH q0 c0) as [new (Hs & Hsub & Hty)].
    exists new. rewrite Hs, H0. repeat split; [by apply sublist_inserts_l | done]. }
  rewrite service_loop_cons, service_iter_unfold. cbv zeta.
  unfold answers. simpl. fold (answers ticks).
  destruct (destroyCh _); [apply Hnil; by frame|].
  destruct (response t) as [err|service i].
  { apply (Hgo _ _ []). by frame. }
  destruct (bool_decide _); [|apply Hnil; by frame].
  destruct (WaitIndex q <? i); [|apply (Hgo _ _ [(service, i)]); by frame].
  destruct (sendClosed _); [apply Hnil; by frame|].
  match goal with |- context [service_loop _ ?q' _ ?c'] =>
    destruct (IH q' c') as [new (Hs & Hsub & Hty)] end.
  exists (mkAction ActionType.fetchedConsulService service i :: new).
  rewrite Hs. frame. rewrite <- app_assoc.
  repeat split; [by apply sublist_skip | by constructor].
Qed.

Lemma node_loop_content nodeID ticks : forall q c,
  exists new,
    send (snd (node_loop nodeID q ticks c)) = send c ++ new /\
    map content new `sublist_of` answers ticks /\
    Forall (fun a => Type' a = ActionType.fetchedConsulNode) new.
Proof.
  induction ticks as [|t ticks IH]; intros q c.
  { exists []. rewrite app_nil_r. repeat split; [apply sublist_nil_l | constructor]. }
  assert (Hnil : forall c0 l, send c0 = send c ->
            exists new, send c0 = send c ++ new /\
              map content new `sublist_of` l /\
              Forall (fun a => Type' a = ActionType.fetchedConsulNode) new).
  { intros c0 l H0. exists []. rewrite app_nil_r.
    repeat split; [done | apply sublist_nil_l | constructor]. }
  assert (Hgo : forall q0 c0 l, send c0 = send c ->
            exists new, send (snd (node_loop nodeID q0 ticks c0)) = send c ++ new /\
              map content new `sublist_of` l ++ answers ticks /\
              Forall (fun a => Type' a = ActionType.fetchedConsulNode) new).
  { intros q0 c0 l H0. destruct (IH q0 c0) as [new (Hs & Hsub & Hty)].
    exists new. rewrite Hs, H0. repeat split; [by apply sublist_inserts_l | done]. }
  rewrite node_loop_cons, node_iter_unfold. cbv zeta.
  unfold answers. simpl. fold (answers ticks).
  destruct (destroyCh _); [apply Hnil; by frame|].
  destruct (response t) as [err|node i].
  { apply (Hgo _ _ []). by frame. }
  destruct (bool_decide _); [|apply Hnil; by frame].
  destruct (i =? WaitIndex q); [apply (Hgo _ _ [(node, i)]); by frame|].
  destruct (sendClosed _); [apply Hnil; by frame|].
  match goal with |- context [node_loop _ ?q' _ ?c'] =>
    destruct (IH q' c') as [new (Hs & Hsub & Hty)] end.
  exists (mkAction ActionType.fetchedConsulNode node i :: new).
  rewrite Hs. frame. rewrite <- app_assoc.
  repeat split; [by apply sublist_skip | by constructor].
Qed.

(** X3: whatever a per-entity watch puts on the outbound queue is an answer
    of the backend: the actions have the type of the watch
    (fetchedConsulService, fetchedConsulNode), and their payloads and
    indices are, in order, answers the Consul client returned during the
    run, each one at most once. *)
Theorem entity_watch_publishes_backend_answers (action : Action) (ticks : list Tick)
    (c : ConsulConnection) :
  (map content (sent_by (watchConsulService action ticks) c) `sublist_of` answers ticks /\
   Forall (fun a => Type' a = ActionType.fetchedConsulService)
          (sent_by (watchConsulService action ticks) c)) /\
  (map content (sent_by (watchConsulNode action ticks) c) `sublist_of` answers ticks /\
   Forall (fun a => Type' a = ActionType.fetchedConsulNode)
          (sent_by (watchConsulNode action ticks) c)).
Proof.
  split.
  - destruct (Payload' action) as [| | |serviceID| |] eqn:HP;
      try (rewrite (sent_by_app _ _ []);
           [split; [apply sublist_nil_l | constructor]
           | unfold watchConsulService; rewrite HP; simpl; by rewrite app_nil_r]).
    destruct (service_loop_content serviceID ticks (mkQueryOptions 1 0)
                (service_started serviceID c)) as [new (Hs & Hsub & Hty)].
    destruct (decide (serviceID ∈ watches c)) as [Hin|Hout].
    + rewrite (sent_by_app _ _ []); [split; [apply sublist_nil_l | constructor]|].
      rewrite (watchConsulService_unfold _ serviceID), bool_decide_eq_true_2 by done.
      simpl. by rewrite app_nil_r.
    + rewrite (sent_by_app _ _ new); [done|].
      rewrite (watchConsulService_unfold _ serviceID), bool_decide_eq_false_2 by done.
      destruct (service_loop _ _ _ _) as [[[|]|v] c']; simpl in *; by rewrite Hs.
  - destruct (Payload' action) as [| | |nodeID| |] eqn:HP;
      try (rewrite (sent_by_app _ _ []);
           [split; [apply sublist_nil_l | constructor]
           | unfold watchConsulNode; rewrite HP; simpl; by rewrite app_nil_r]).
    destruct (node_loop_content nodeID ticks (mkQueryOptions 1 0)
                (node_started nodeID c)) as [new (Hs & Hsub & Hty)].
    destruct (decide (nodeID ∈ watches c)) as [Hin|Hout].
    + rewrite (sent_by_app _ _ []); [split; [apply sublist_nil_l | constructor]|].
      rewrite (watchConsulNode_unfold _ nodeID), bool_decide_eq_true_2 by done.
      simpl. by rewrite app_nil_r.
    + rewrite (sent_by_app _ _ new); [done|].
      rewrite (watchConsulNode_unfold _ nodeID), bool_decide_eq_false_2 by done.
      destruct (node_loop _ _ _ _) as [[[|]|v] c']; simpl in *; by rewrite Hs.
Qed.

(** ** Undisturbed runs *)

Lemma service_loop_steady serviceID ticks : forall q c,
  forallb calm ticks = true ->
  forallb (fun t => negb (is_error t)) ticks = true ->
  strictly_increasing (WaitIndex q :: markers ticks) = true ->
  destroyCh c = false -> sendClosed c = false -> serviceID ∈ watches c ->
  exists c', service_loop serviceID q ticks c = (Value Running, c') /\
    steady_run HealthService ActionType.fetchedConsulService serviceID q ticks c c'.
Proof.
  induction ticks as [|t ticks IH]; intros q c Hcalm Hok Hinc Halive Hopen Hwatched.
  { exists c. split; [done|]. split; simpl; by rewrite ?app_nil_r. }
  simpl in Hcalm, Hok.
  apply andb_prop in Hcalm as [Hc Hcalm]. apply andb_prop in Hok as [Ht Hok].
  apply calm_inv in Hc as (Hb & Hd & Hs). unfold is_error in Ht.
  unfold markers in Hinc. simpl in Hinc. fold (markers ticks) in Hinc.
  rewrite service_loop_cons, service_iter_unfold. cbv zeta.
  rewrite Hb, Hd, Hs. simpl. rewrite Halive.
  destruct (response t) as [err|service i] eqn:Hresp; [done|].
  simpl in Hinc. apply andb_prop in Hinc as [Hlt Hinc].
  rewrite bool_decide_eq_true_2, Hlt, Hopen by done.
  match goal with |- context [service_loop _ ?q' _ ?c1] =>
    destruct (IH q' c1 Hcalm Hok Hinc Halive Hopen Hwatched)
      as [c' [Hrun [Hsend Hw Hq Hsl]]] end.
  exists c'. split; [done|].
  split; unfold markers, answers; simpl; rewrite ?Hresp; simpl;
    fold (markers ticks); fold (answers ticks).
  - rewrite Hsend. simpl. by rewrite <- app_assoc.
  - by rewrite Hw.
  - rewrite Hq. simpl. rewrite !queries_app. simpl.
    by rewrite !app_nil_r, <- app_assoc.
  - rewrite Hsl. simpl. rewrite !sleeps_app. simpl.
    by rewrite !app_nil_r, <- app_assoc.
Qed.

Lemma node_loop_steady nodeID ticks : forall q c,
  forallb calm ticks = true ->
  forallb (fun t => negb (is_error t)) ticks = true ->
  strictly_increasing (WaitIndex q :: markers ticks) = true ->
  destroyCh c = false -> sendClosed c = false -> nodeID ∈ watches c ->
  exists c', node_loop nodeID q ticks c = (Value Running, c') /\
    steady_run HealthNode ActionType.fetchedConsulNode nodeID q ticks c c'.
Proof.
  induction ticks as [|t ticks IH]; intros q c Hcalm Hok Hinc Halive Hopen Hwatched.
  { exists c. split; [done|]. split; simpl; by rewrite ?app_nil_r. }
  simpl in Hcalm, Hok.
  apply andb_prop in Hcalm as [Hc Hcalm]. apply andb_prop in Hok as [Ht Hok].
  apply calm_inv in Hc as (Hb & Hd & Hs). unfold is_error in Ht.
  unfold markers in Hinc. simpl in Hinc. fold (markers ticks) in Hinc.
  rewrite node_loop_cons, node_iter_unfold. cbv zeta.
  rewrite Hb, Hd, Hs. simpl. rewrite Halive.
  destruct (response t) as [err|node i] eqn:Hresp; [done|].
  simpl in Hinc. apply andb_prop in Hinc as [Hlt Hinc].
  assert (Hne : (i =? WaitIndex q) = false).
  { apply N.eqb_neq. apply N.ltb_lt in Hlt. lia. }
  rewrite bool_decide_eq_true_2, Hne, Hopen by done.
  match goal with |- context [node_loop _ ?q' _ ?c1] =>
    destruct (IH q' c1 Hcalm Hok Hinc Halive Hopen Hwatched)
      as [c' [Hrun [Hsend Hw Hq Hsl]]] end.
  exists c'. split; [done|].
  split; unfold markers, answers; simpl; rewrite ?Hresp; simpl;
    fold (markers ticks); fold (answers ticks).
  - rewrite Hsend. simpl. by rewrite <- app_assoc.
  - by rewrite Hw.
  - rewrite Hq. simpl. rewrite !queries_app. simpl.
    by rewrite !app_nil_r, <- app_assoc.
  - rewrite Hsl. simpl. rewrite !sleeps_app. simpl.
    by rewrite !app_nil_r, <- app_assoc.
Qed.

(** X4: on an open, live connection where nobody interferes, a per-entity
    watch whose backend answers every query with a marker past the previous
    one (the first past 1) publishes every answer, in order and unchanged.
    The first query carries marker 1 and no wait time, each later query the
    marker just published and a wait time of 10 s, and each publish is
    followed by a sleep of 5 s. *)
Theorem entity_watch_publishes_every_advance (action : Action) (id : string)
    (ticks : list Tick) (c : ConsulConnection)
    (HP : Payload' action = PString id) (Hnew : id ∉ watches c)
    (Halive : destroyCh c = false) (Hopen : sendClosed c = false)
    (Hcalm : forallb calm ticks = true)
    (Hok : forallb (fun t => negb (is_error t)) ticks = true)
    (Hinc : strictly_increasing (1 :: markers ticks) = true) :
  (exists c', watchConsulService action ticks c = (Value Running, c') /\
     send c' = send c ++ map (fetched ActionType.fetchedConsulService) (answers ticks) /\
     queries (trace c') = queries (trace c) ++
       map (fun q => (HealthService, id, q)) (resume_points (mkQueryOptions 1 0) (markers ticks)) /\
     sleeps (trace c') = sleeps (trace c) ++ repeat (5 * Second) (length ticks)) /\
  (exists c', watchConsulNode action ticks c = (Value Running, c') /\
     send c' = send c ++ map (fetched ActionType.fetchedConsulNode) (answers ticks) /\
     queries (trace c') = queries (trace c) ++
       map (fun q => (HealthNode, id, q)) (resume_points (mkQueryOptions 1 0) (markers ticks)) /\
     sleeps (trace c') = sleeps (trace c) ++ repeat (5 * Second) (length ticks)).
Proof.
  assert (Hin : id ∈ ({[id]} ∪ watches c : gset string)).
  { apply elem_of_union_l, elem_of_singleton. done. }
  split.
  - destruct (service_loop_steady id ticks (mkQueryOptions 1 0) (service_started id c)
                Hcalm Hok Hinc Halive Hopen Hin) as [c' [Hrun [Hsend Hw Hq Hsl]]].
    exists c'. rewrite (watchConsulService_unfold _ id), bool_decide_eq_false_2, Hrun by done.
    split; [done|]. rewrite Hsend, Hq, Hsl. simpl.
    rewrite queries_app, sleeps_app. simpl. by rewrite !app_nil_r.
  - destruct (node_loop_steady id ticks (mkQueryOptions 1 0) (node_started id c)
                Hcalm Hok Hinc Halive Hopen Hin) as [c' [Hrun [Hsend Hw Hq Hsl]]].
    exists c'. rewrite (watchConsulNode_unfold _ id), bool_decide_eq_false_2, Hrun by done.
    split; [done|]. rewrite Hsend, Hq, Hsl. simpl.
    rewrite queries_app, sleeps_app. simpl. by rewrite !app_nil_r.
Qed.

Lemma entity_watch_publishes_every_advance_witness :
  exists c',
    watchConsulService (watchService "web") [ok_tick (PArray []) 4; ok_tick (PArray []) 9]
      (fresh "c0ffee00") = (Value Running, c') /\
    send c' = [mkAction ActionType.fetchedConsulService (PArray []) 4;
               mkAction ActionType.fetchedConsulService (PArray []) 9] /\
    queries (trace c') =
      [(HealthService, "web", mkQueryOptions 1 0);
       (HealthService, "web", mkQueryOptions 4 (10 * Second))] /\
    sleeps (trace c') = [5 * Second; 5 * Second].
Proof.
  apply (proj1 (entity_watch_publishes_every_advance (watchService "web") "web"
                  [ok_tick (PArray []) 4; ok_tick (PArray []) 9] (fresh "c0ffee00")
                  eq_refl ltac:(vm_compute; discriminate) eq_refl eq_refl eq_refl eq_refl
                  eq_refl)).
Defined.

(** ** The two comparisons *)

Lemma alike_refl c : alike c c.
Proof. by split. Qed.

Lemma alike_apply_op o c1 c2 : alike c1 c2 -> alike (apply_op o c1) (apply_op o c2).
Proof. intros [Hw Hs Hc Hd]. destruct o; split; simpl; by rewrite ?Hw. Qed.

Lemma alike_apply_env ops : forall c1 c2,
  alike c1 c2 -> alike (apply_env ops c1) (apply_env ops c2).
Proof.
  induction ops as [|o ops IH]; intros c1 c2 H; [done|].
  simpl. by apply IH, alike_apply_op.
Qed.

Lemma alike_emit_l e c1 c2 : alike c1 c2 -> alike (emit e c1) c2.
Proof. by intros [Hw Hs Hc Hd]. Qed.

Lemma alike_emit_r e c1 c2 : alike c1 c2 -> alike c1 (emit e c2).
Proof. by intros [Hw Hs Hc Hd]. Qed.

Lemma alike_publish a1 a2 c1 c2 :
  content a1 = content a2 -> alike c1 c2 -> alike (publish a1 c1) (publish a2 c2).
Proof.
  intros Ha [Hw Hs Hc Hd]. split; simpl; try done.
  by rewrite !map_app, Hs, (map_cons content a1), (map_cons content a2), Ha.
Qed.

Lemma loops_alike id ticks : forall q c1 c2,
  alike c1 c2 ->
  nondecreasing (WaitIndex q :: markers ticks) = true ->
  fst (service_loop id q ticks c1) = fst (node_loop id q ticks c2) /\
  alike (snd (service_loop id q ticks c1)) (snd (node_loop id q ticks c2)).
Proof.
  induction ticks as [|t ticks IH]; intros q c1 c2 Hal Hmono; [done|].
  rewrite service_loop_cons, service_iter_unfold, node_loop_cons, node_iter_unfold.
  cbv zeta.
  pose proof (alike_apply_env (before_select t) _ _ Hal) as Hal1.
  rewrite (alike_destroyCh _ _ Hal1).
  destruct (destroyCh (apply_env (before_select t) c2)); [done|].
  assert (Hal2 : alike
            (apply_env (during_query t)
               (emit (EvQuery HealthService id q) (apply_env (before_select t) c1)))
            (apply_env (during_query t)
               (emit (EvQuery HealthNode id q) (apply_env (before_select t) c2)))).
  { by apply alike_apply_env, alike_emit_l, alike_emit_r. }
  unfold markers in Hmono. simpl in Hmono. fold (markers ticks) in Hmono.
  destruct (response t) as [err|v i].
  { apply IH; [|done]. by do 2 apply alike_emit_l; do 2 apply alike_emit_r. }
  simpl in Hmono. apply andb_prop in Hmono as [Hle Hmono]. apply N.leb_le in Hle.
  rewrite (alike_watches _ _ Hal2).
  destruct (bool_decide (id ∈ _)); [|done].
  destruct (i =? WaitIndex q) eqn:Heq.
  - apply N.eqb_eq in Heq. subst i. rewrite N.ltb_irrefl.
    apply IH; [by apply alike_emit_r | done].
  - apply N.eqb_neq in Heq.
    assert (Hlt : (WaitIndex q <? i) = true) by (apply N.ltb_lt; lia).
    rewrite Hlt.
    pose proof (alike_apply_env (before_send t) _ _ Hal2) as Hal3.
    rewrite (alike_sendClosed _ _ Hal3).
    destruct (sendClosed _); [done|].
    apply IH; [by apply alike_publish | done].
Qed.

(** X5: against a backend whose markers never go back (and start at 1 or
    above) the comparison of [watchConsulService] (publish when the marker
    is past the local one) and that of [watchConsulNode] (publish unless the
    marker equals the local one) decide alike: run on the same connection
    with the same answers, the two watches end in the same way, leave the
    same watch set and publish the same payloads with the same indices. *)
Theorem entity_watches_agree_on_monotone_backend (action : Action) (ticks : list Tick)
    (c : ConsulConnection) (Hmono : nondecreasing (1 :: markers ticks) = true) :
  fst (watchConsulService action ticks c) = fst (watchConsulNode action ticks c) /\
  watches (snd (watchConsulService action ticks c)) =
    watches (snd (watchConsulNode action ticks c)) /\
  map content (sent_by (watchConsulService action ticks) c) =
    map content (sent_by (watchConsulNode action ticks) c).
Proof.
  assert (Hal : fst (watchConsulService action ticks c) = fst (watchConsulNode action ticks c) /\
                alike (snd (watchConsulService action ticks c))
                      (snd (watchConsulNode action ticks c))).
  { destruct (Payload' action) as [| | |id| |] eqn:HP;
      try (unfold watchConsulService, watchConsulNode; rewrite HP; simpl;
           split; [done | apply alike_refl]).
    rewrite (watchConsulService_unfold _ id), (watchConsulNode_unfold _ id) by done.
    destruct (bool_decide (id ∈ watches c)).
    { split; [done|]. apply alike_emit_l, alike_emit_r, alike_refl. }
    destruct (loops_alike id ticks (mkQueryOptions 1 0) (service_started id c)
                (node_started id c)) as [Hst Hal]; [|done|].
    { apply alike_emit_l, alike_emit_r, alike_refl. }
    destruct (service_loop _ _ _ _) as [r1 c1], (node_loop _ _ _ _) as [r2 c2].
    simpl in Hst, Hal. subst r2.
    destruct Hal as [Hw Hs Hc Hd].
    destruct r1 as [[|]|v]; simpl; (split; [done|]); split; simpl; by rewrite ?Hw. }
  destruct Hal as [Hst [Hw Hs _ _]]. split; [done|]. split; [done|].
  destruct (watchConsulService_sent action ticks c) as [new1 [H1 _]].
  destruct (watchConsulNode_sent action ticks c) as [new2 [H2 _]].
  rewrite (sent_by_app _ _ _ H1), (sent_by_app _ _ _ H2).
  rewrite H1, H2, !map_app in Hs. by apply app_inv_head in Hs.
Qed.

Lemma entity_watches_agree_on_monotone_backend_witness :
  map content (sent_by (watchConsulService (watchService "db")
                          [ok_tick PNil 1; ok_tick PNil 3; ok_tick PNil 3; ok_tick PNil 8])
                       (fresh "c0ffee00")) =
  map content (sent_by (watchConsulNode (watchService "db")
                          [ok_tick PNil 1; ok_tick PNil 3; ok_tick PNil 3; ok_tick PNil 8])
                       (fresh "c0ffee00")).
Proof.
  apply (proj2 (proj2 (entity_watches_agree_on_monotone_backend (watchService "db")
                         [ok_tick PNil 1; ok_tick PNil 3; ok_tick PNil 3; ok_tick PNil 8]
                         (fresh "c0ffee00") eq_refl))).
Defined.

(** * Further properties of the shared watch *)

Lemma on_change_unfold watchKey actionEvent a ops c :
  on_change watchKey actionEvent (SVAction a) ops c =
    let c1 := emit (EvLog LDebug (prefixed c "got new data for %s (WaitIndex: %d)")
                          [ArgStr watchKey; ArgNum (Index a)]) c in
    if bool_decide (watchKey ∈ watches c) then
      if bool_decide (Type' a = actionEvent) then
        let c2 := apply_env ops
                    (emit (EvLog LDebug (prefixed c "Publishing change %s %s")
                                 [ArgStr (Type' a); ArgStr watchKey]) c1) in
        if sendClosed c2 then (Panic SendOnClosedChannel, c2)
        else (Value (Continue tt), set_send (send c2 ++ [a]) c2)
      else
        (Value (Continue tt),
         emit (EvLog LDebug (prefixed c "Type mismatch: %s <> %s")
                     [ArgStr (Type' a); ArgStr actionEvent]) c1)
    else
      (Value Return,
       emit (EvLog LInfo (prefixed c "Connection is no longer subscribed to %s")
                   [ArgStr watchKey]) c1).
Proof.
  unfold on_change. task_unfold. simpl.
  destruct (bool_decide (watchKey ∈ watches c)); simpl; [|done].
  destruct (bool_decide (Type' a = actionEvent)); simpl; [|done].
  by destruct (sendClosed _).
Qed.

Lemma broadcast_loop_steady watchKey actionEvent prop : forall c,
  forallb steady_change prop = true ->
  destroyCh c = false -> sendClosed c = false -> watchKey ∈ watches c ->
  exists c',
    broadcast_loop watchKey actionEvent prop c = (Value Running, c') /\
    send c' = send c ++ List.filter (has_type actionEvent) (published prop) /\
    watches c' = watches c.
Proof.
  induction prop as [|t prop IH]; intros c Hsteady Halive Hopen Hwatched.
  { exists c. simpl. by rewrite app_nil_r. }
  simpl in Hsteady. apply andb_prop in Hsteady as [Ht Hsteady].
  unfold steady_change in Ht.
  destruct (while_waiting t) eqn:Hwait; [|done].
  destruct (change t) as [[a|]|] eqn:Hchange; [|done|done].
  destruct (before_publish t) eqn:Hbefore; [|discriminate Ht].
  assert (Hpub : published (t :: prop) = a :: published prop).
  { unfold published. simpl. by rewrite Hchange. }
  rewrite Hpub, broadcast_loop_cons.
  unfold broadcast_iter, broadcast_select. task_unfold.
  rewrite Hwait, Hchange, Hbefore. cbn [apply_env fold_left].
  rewrite Halive, on_change_unfold. cbv zeta.
  rewrite bool_decide_eq_true_2 by done. cbn [List.filter]. unfold has_type at 1.
  destruct (bool_decide (Type' a = actionEvent)).
  - cbn [apply_env fold_left]. simpl sendClosed. rewrite Hopen.
    match goal with |- context [broadcast_loop _ _ _ ?c1] =>
      destruct (IH c1 Hsteady Halive Hopen Hwatched) as [c' (Hrun & Hs & Hw)] end.
    exists c'. rewrite Hrun, Hs. simpl. by rewrite <- app_assoc.
  - match goal with |- context [broadcast_loop _ _ _ ?c1] =>
      destruct (IH c1 Hsteady Halive Hopen Hwatched) as [c' (Hrun & Hs & Hw)] end.
    exists c'. by rewrite Hrun, Hs.
Qed.

(** X6: on an open, live connection where nobody interferes, a shared watch
    forwards, after its initial snapshot, exactly the published actions
    that have the expected type, in the order of their publication; actions
    of another type are dropped and do not stop the watch. *)
Theorem shared_watch_forwards_expected_type (watchKey actionEvent : string)
    (prop : list BroadcastTick) (initialPayload : Payload) (c : ConsulConnection)
    (Hnew : watchKey ∉ watches c) (Halive : destroyCh c = false)
    (Hopen : sendClosed c = false) (Hsteady : forallb steady_change prop = true) :
  exists c',
    watchGenericBroadcast watchKey actionEvent prop initialPayload c = (Value Running, c') /\
    send c' = send c ++ mkAction actionEvent initialPayload 0 ::
                List.filter (has_type actionEvent) (published prop) /\
    watchKey ∈ watches c'.
Proof.
  rewrite watchGenericBroadcast_unfold, bool_decide_eq_false_2, Hopen by done.
  destruct (broadcast_loop_steady watchKey actionEvent prop
              (broadcast_started watchKey actionEvent initialPayload c)
              Hsteady Halive Hopen) as [c' (Hrun & Hs & Hw)].
  { simpl. apply elem_of_union_l, elem_of_singleton. done. }
  exists c'. rewrite Hrun, Hs, Hw. simpl. rewrite <- app_assoc.
  split; [done|]. split; [done|]. apply elem_of_union_l, elem_of_singleton. done.
Qed.

Lemma shared_watch_forwards_expected_type_witness :
  exists c',
    watchGenericBroadcast "nodes" ActionType.fetchedConsulNodes
      [services_tick (mkAction ActionType.fetchedConsulNodes (PArray []) 3);
       services_tick (mkAction ActionType.fetchedConsulServices (PArray []) 4);
       services_tick (mkAction ActionType.fetchedConsulNodes (PArray []) 5)]
      (PArray []) (fresh "c0ffee00") = (Value Running, c') /\
    send c' = [mkAction ActionType.fetchedConsulNodes (PArray []) 0;
               mkAction ActionType.fetchedConsulNodes (PArray []) 3;
               mkAction ActionType.fetchedConsulNodes (PArray []) 5] /\
    "nodes" ∈ watches c'.
Proof.
  apply (shared_watch_forwards_expected_type "nodes" ActionType.fetchedConsulNodes
           [services_tick (mkAction ActionType.fetchedConsulNodes (PArray []) 3);
            services_tick (mkAction ActionType.fetchedConsulServices (PArray []) 4);
            services_tick (mkAction ActionType.fetchedConsulNodes (PArray []) 5)]
           (PArray []) (fresh "c0ffee00")
           ltac:(vm_compute; discriminate) eq_refl eq_refl eq_refl).
Defined.

(** X7: a shared watch stops at the first round after its key has left the
    watch set or the destroy signal has been taken: when a new value
    arrives and the key is no longer watched, or when the [select] takes
    the destroy case, the loop returns, and neither this value nor any
    later one is forwarded.  [unwatchGenericBroadcast] brings the first
    case about. *)
Theorem shared_watch_stops (watchKey actionEvent : string) (t : BroadcastTick)
    (prop : list BroadcastTick) (c : ConsulConnection) :
  (forall a, change t = Some (SVAction a) ->
     watchKey ∉ watches (apply_env (while_waiting t) c) ->
     exists c', broadcast_loop watchKey actionEvent (t :: prop) c = (Value Returned, c') /\
                send c' = send c) /\
  (destroyCh (apply_env (while_waiting t) c) = true ->
     change t = None \/ prefer_destroy t = true ->
     broadcast_loop watchKey actionEvent (t :: prop) c =
       (Value Returned, apply_env (while_waiting t) c)) /\
  (watchKey ∉ watches (snd (unwatchGenericBroadcast watchKey c))).
Proof.
  split; [|split].
  - intros a Hchange Hgone.
    rewrite broadcast_loop_cons. unfold broadcast_iter, broadcast_select. task_unfold.
    rewrite Hchange, on_change_unfold. cbv zeta.
    rewrite bool_decide_eq_false_2 by done.
    destruct (destroyCh _); [destruct (prefer_destroy t)|];
      eexists; (split; [reflexivity|]); simpl; apply send_apply_env.
  - intros Hd Hpick.
    rewrite broadcast_loop_cons. unfold broadcast_iter, broadcast_select. task_unfold.
    rewrite Hd. destruct Hpick as [-> | ->]; [done|].
    by destruct (change t).
  - unfold unwatchGenericBroadcast. task_unfold. simpl.
    rewrite elem_of_difference, elem_of_singleton. by intros [_ []].
Qed.

Lemma shared_watch_stops_witness :
  exists c',
    broadcast_loop "services" ActionType.fetchedConsulServices
      [mkBroadcastTick [OpWatchRemove "services"]
         (Some (SVAction (mkAction ActionType.fetchedConsulServices PNil 6))) false [];
       services_tick (mkAction ActionType.fetchedConsulServices PNil 7)]
      (watching "c0ffee00" ["services"]) = (Value Returned, c') /\
    send c' = send (watching "c0ffee00" ["services"]).
Proof.
  apply (proj1 (shared_watch_stops "services" ActionType.fetchedConsulServices
                  (mkBroadcastTick [OpWatchRemove "services"]
                     (Some (SVAction (mkAction ActionType.fetchedConsulServices PNil 6)))
                     false [])
                  [services_tick (mkAction ActionType.fetchedConsulServices PNil 7)]
                  (watching "c0ffee00" ["services"]))
           (mkAction ActionType.fetchedConsulServices PNil 6) eq_refl
           ltac:(vm_compute; discriminate)).
Defined.

(** * Properties of the dispatcher and of the session *)

Ltac process_cases :=
  unfold process, unwatchGenericBroadcast; task_unfold;
  repeat match goal with
         | |- context [String_eqb ?a ?b] => destruct (String_eqb a b)
         end.

Lemma difference_subseteq (w : gset string) (k : string) : w ∖ {[k]} ⊆ w.
Proof. intros x. rewrite elem_of_difference. by intros [Hx _]. Qed.

Lemma process_frame action c :
  send (snd (process action c)) = send c /\
  sendClosed (snd (process action c)) = sendClosed c /\
  destroyCh (snd (process action c)) = destroyCh c /\
  watches (snd (process action c)) ⊆ watches c /\
  shortID (snd (process action c)) = shortID c /\
  hubRegions (snd (process action c)) = hubRegions c /\
  regionServices (snd (process action c)) = regionServices c /\
  regionNodes (snd (process action c)) = regionNodes c.
Proof.
  process_cases; simpl;
    try (destruct (Payload' action); simpl);
    repeat split; done || apply difference_subseteq.
Qed.

(** X8: [process] itself never puts anything on the outbound queue, never
    closes it and never raises the destroy signal, whatever the action; it
    adds no key to the watch set (keys are added by the goroutines it
    starts), and it starts at most one goroutine per action. *)
Theorem process_leaves_queue_alone (action : Action) (c : ConsulConnection) :
  send (snd (process action c)) = send c /\
  sendClosed (snd (process action c)) = sendClosed c /\
  destroyCh (snd (process action c)) = destroyCh c /\
  watches (snd (process action c)) ⊆ watches c /\
  ((exists gs, fst (process action c) = Value gs /\ (length gs <= 1)%nat) \/
   (exists v, fst (process action c) = Panic v)).
Proof.
  destruct (process_frame action c) as (Hs & Hc & Hd & Hw & _).
  repeat (split; [done|]).
  process_cases; simpl; try (destruct (Payload' action); simpl);
    (left; eexists; split; [reflexivity | simpl; lia]) || (right; by eexists).
Qed.

Lemma String_eqb_false a b : a <> b -> String_eqb a b = false.
Proof. intros H. unfold String_eqb. by apply bool_decide_eq_false_2. Qed.

(** X9: an action whose type is none of the nine types [process] knows is
    logged and ignored, whatever its payload: no goroutine is started, no
    panic is raised, and the connection is left as it was but for the debug
    line and the warning. *)
Theorem unknown_action_is_ignored (action : Action) (c : ConsulConnection)
    (Hunknown : Type' action ∉ known_types) :
  process action c =
    (Value [],
     emit (EvLog LWarning "Unknown action: %s" [ArgStr (Type' action)])
          (emit (processing_log c action) c)).
Proof.
  unfold known_types in Hunknown. rewrite !not_elem_of_cons in Hunknown.
  destruct Hunknown as (H1 & H2 & H3 & H4 & H5 & H6 & H7 & H8 & H9 & _).
  unfold process. task_unfold.
  rewrite !String_eqb_false by done. done.
Qed.

Lemma unknown_action_is_ignored_witness :
  process (mkAction "watchJobs" (PNumber 3) 0) (fresh "c0ffee00") =
    (Value [],
     emit (EvLog LWarning "Unknown action: %s" [ArgStr "watchJobs"])
          (emit (processing_log (fresh "c0ffee00") (mkAction "watchJobs" (PNumber 3) 0))
                (fresh "c0ffee00"))).
Proof.
  apply (unknown_action_is_ignored (mkAction "watchJobs" (PNumber 3) 0) (fresh "c0ffee00")).
  vm_compute. intros H. repeat (apply elem_of_cons in H as [H|H]; [discriminate H|]).
  by apply elem_of_nil in H.
Defined.

(** X10: the two per-entity unwatch actions are one operation on one set of
    keys: with a string payload either of them removes exactly the key the
    payload names, be it the id of a service, the id of a node or the key of
    a shared watch, and starts nothing; when the key is not watched the
    connection is left as it was but for the debug line. *)
Theorem unwatch_removes_named_key (ty k : string) (i : N) (c : ConsulConnection)
    (Hty : ty = ActionType.unwatchConsulService \/ ty = ActionType.unwatchConsulNode) :
  process (mkAction ty (PString k) i) c =
    (Value [],
     set_watches (watches c ∖ {[k]}) (emit (processing_log c (mkAction ty (PString k) i)) c)) /\
  (k ∉ watches c ->
     process (mkAction ty (PString k) i) c =
       (Value [], emit (processing_log c (mkAction ty (PString k) i)) c)).
Proof.
  assert (Heq : process (mkAction ty (PString k) i) c =
    (Value [],
     set_watches (watches c ∖ {[k]}) (emit (processing_log c (mkAction ty (PString k) i)) c))).
  { destruct Hty as [-> | ->]; done. }
  split; [done|]. intros Hout. rewrite Heq. f_equal.
  exact (watches_Remove_absent k (emit (processing_log c (mkAction ty (PString k) i)) c) Hout).
Qed.

Lemma unwatch_removes_named_key_witness :
  process (mkAction ActionType.unwatchConsulNode (PString "services") 0)
      (watching "c0ffee00" ["services"; "web"]) =
    (Value [],
     set_watches (watches (watching "c0ffee00" ["services"; "web"]) ∖ {["services"]})
       (emit (processing_log (watching "c0ffee00" ["services"; "web"])
                (mkAction ActionType.unwatchConsulNode (PString "services") 0))
             (watching "c0ffee00" ["services"; "web"]))).
Proof.
  apply (proj1 (unwatch_removes_named_key ActionType.unwatchConsulNode "services" 0
                  (watching "c0ffee00" ["services"; "web"]) (or_intror eq_refl))).
Defined.

(** X11: a per-entity loop notices an unwatch only through the membership of
    its key at the moment its query returns.  When the key has been removed
    and added again while the query was blocked (an unwatch followed by a
    new watch of the same entity), the old loop goes on and publishes the
    answer, beside the loop of the new watch. *)
Theorem rewatch_keeps_old_loop (id : string) (q : QueryOptions) (t : Tick)
    (c : ConsulConnection) (v : Payload) (i : N)
    (Hok : response t = QueryOk v i)
    (Halive : destroyCh (apply_env (before_select t) c) = false)
    (Hrace : during_query t = [OpWatchRemove id; OpWatchAdd id])
    (Hopen : sendClosed (apply_env (env_until_check t ++ before_send t) c) = false) :
  (id ∉ watches (apply_env (before_select t ++ [OpWatchRemove id]) c)) /\
  (WaitIndex q < i ->
     exists c', service_iter id q t c = (Value (Continue (mkQueryOptions i (10 * Second))), c') /\
       send c' = send c ++ [mkAction ActionType.fetchedConsulService v i]) /\
  (i <> WaitIndex q ->
     exists c', node_iter id q t c = (Value (Continue (mkQueryOptions i (10 * Second))), c') /\
       send c' = send c ++ [mkAction ActionType.fetchedConsulNode v i]).
Proof.
  unfold env_until_check in Hopen. rewrite !apply_env_app in Hopen.
  assert (Hin : forall e : Event,
            id ∈ watches (apply_env (during_query t) (emit e (apply_env (before_select t) c)))).
  { intros e. rewrite Hrace. simpl. apply elem_of_union_l, elem_of_singleton. done. }
  assert (Hopen' : forall e : Event,
            sendClosed (apply_env (before_send t)
                          (apply_env (during_query t)
                             (emit e (apply_env (before_select t) c)))) = false).
  { intros e. rewrite !apply_env_emit. exact Hopen. }
  split; [|split].
  - rewrite apply_env_app. simpl.
    rewrite elem_of_difference, elem_of_singleton. by intros [_ []].
  - intros Hlt. apply N.ltb_lt in Hlt.
    rewrite service_iter_unfold. cbv zeta.
    rewrite Halive, Hok, bool_decide_eq_true_2, Hlt, Hopen' by apply Hin.
    eexists. split; [reflexivity|]. by frame.
  - intros Hne. apply N.eqb_neq in Hne.
    rewrite node_iter_unfold. cbv zeta.
    rewrite Halive, Hok, bool_decide_eq_true_2, Hne, Hopen' by apply Hin.
    eexists. split; [reflexivity|]. by frame.
Qed.

Lemma rewatch_keeps_old_loop_witness :
  exists c',
    service_iter "web" (mkQueryOptions 4 (10 * Second))
      (mkTick [] (QueryOk PNil 6) [OpWatchRemove "web"; OpWatchAdd "web"] [])
      (watching "c0ffee00" ["web"]) =
      (Value (Continue (mkQueryOptions 6 (10 * Second))), c') /\
    send c' = send (watching "c0ffee00" ["web"]) ++
              [mkAction ActionType.fetchedConsulService PNil 6].
Proof.
  apply (proj1 (proj2 (rewatch_keeps_old_loop "web" (mkQueryOptions 4 (10 * Second))
                         (mkTick [] (QueryOk PNil 6) [OpWatchRemove "web"; OpWatchAdd "web"] [])
                         (watching "c0ffee00" ["web"]) PNil 6 eq_refl eq_refl eq_refl eq_refl))).
  reflexivity.
Defined.

(** ** The read pump *)

Lemma lift_process_frame action s :
  hubRequests (snd (lift (process action) s)) = hubRequests s /\
  started (snd (lift (process action) s)) = started s /\
  conn (snd (lift (process action) s)) = snd (process action (conn s)).
Proof. unfold lift. by destruct (process action (conn s)). Qed.

Lemma readPump_loop_frame reads : forall s,
  hubRequests (snd (readPump_loop reads s)) = hubRequests s /\
  send (conn (snd (readPump_loop reads s))) = send (conn s) /\
  sendClosed (conn (snd (readPump_loop reads s))) = sendClosed (conn s) /\
  destroyCh (conn (snd (readPump_loop reads s))) = destroyCh (conn s) /\
  watches (conn (snd (readPump_loop reads s))) ⊆ watches (conn s) /\
  exists gs, started (snd (readPump_loop reads s)) = started s ++ map RTask gs.
Proof.
  induction reads as [|[action|err] reads IH]; intros s.
  - simpl. repeat split; try done. exists []. by rewrite app_nil_r.
  - simpl.
    destruct (lift_process_frame action s) as (Hh & Hst & Hc).
    destruct (process_frame action (conn s)) as (Hs & Hcl & Hd & Hw & _).
    destruct (lift (process action) s) as [[gs|v] s'] eqn:Hl; simpl in *.
    + destruct (IH (start (map RTask gs) s')) as (Hh' & Hs' & Hcl' & Hd' & Hw' & [gs' Hst']).
      rewrite Hh', Hs', Hcl', Hd', Hst'. simpl.
      rewrite Hh, Hst, Hc, Hs, Hcl, Hd. repeat split; try done.
      * etransitivity; [exact Hw'|]. simpl. by rewrite Hc.
      * exists (gs ++ gs'). by rewrite map_app, app_assoc.
    + rewrite Hh, Hst, Hc, Hs, Hcl, Hd. repeat split; try done.
      exists []. by rewrite app_nil_r.
  - simpl. repeat split; try done. exists []. by rewrite app_nil_r.
Qed.

Lemma readPump_ended reads s s' r :
  readPump reads s = (r, s') -> r <> Value Running ->
  watches (conn s') = ∅ /\
  hubRequests s' = hubRequests s ++ [HubRegister; HubUnregister] /\
  (exists tr, trace (conn s') = tr ++ [EvSocketClose]) /\
  send (conn s') = send (conn s) /\
  sendClosed (conn s') = sendClosed (conn s) /\
  destroyCh (conn s') = destroyCh (conn s).
Proof.
  intros Hrun Hended. unfold readPump in Hrun.
  destruct (readPump_loop_frame reads (hub_send HubRegister s))
    as (Hh & Hs & Hcl & Hd & _ & _).
  destruct (readPump_loop reads (hub_send HubRegister s)) as [[[|]|v] s1];
    injection Hrun as <- <-; [done| |]; simpl in *;
    rewrite Hh, Hs, Hcl, Hd, <- app_assoc; repeat split; try done; by eexists.
Qed.

(** X12: whenever [readPump] ends, by a read error or by a panic of
    [process], its deferred function has run: the watch set is empty, the
    hub has been asked to register and then to unregister the connection,
    and the socket has been closed last.  [readPump] puts nothing on the
    outbound queue and leaves the destroy signal as it is. *)
Theorem readPump_tears_down (reads : list ReadResult) (s s' : Session) (r : Result Status)
    (Hrun : readPump reads s = (r, s')) (Hended : r <> Value Running) :
  watches (conn s') = ∅ /\
  hubRequests s' = hubRequests s ++ [HubRegister; HubUnregister] /\
  (exists tr, trace (conn s') = tr ++ [EvSocketClose]) /\
  send (conn s') = send (conn s) /\
  sendClosed (conn s') = sendClosed (conn s) /\
  destroyCh (conn s') = destroyCh (conn s).
Proof.
  destruct (readPump_ended reads s s' r Hrun Hended) as (Hw & Hh & Htr & Hs & Hc & Hd).
  repeat split; assumption.
Qed.

Lemma readPump_tears_down_witness :
  watches (conn (snd (readPump
                        [ReadOk (mkAction ActionType.unwatchConsulNode (PNumber 7) 0)]
                        (new_session (watching "c0ffee00" ["web"]))))) = ∅.
Proof.
  apply (proj1 (readPump_tears_down
                  [ReadOk (mkAction ActionType.unwatchConsulNode (PNumber 7) 0)]
                  (new_session (watching "c0ffee00" ["web"])) _ _
                  (surjective_pairing _) ltac:(vm_compute; discriminate))).
Defined.







(** ** A new connection *)

Lemma substring_0_length n : forall s,
  (n <= String.length s)%nat -> String.length (String.substring 0 n s) = n.
Proof.
  induction n as [|n IH]; intros [|a s] H; simpl in *; try done; try lia.
  rewrite IH; [done | lia].
Qed.

Lemma substring_0_prefix n : forall s, String.prefix (String.substring 0 n s) s = true.
Proof.
  induction n as [|n IH]; intros [|a s]; simpl; try done.
  destruct (Ascii.ascii_dec a a); [apply IH | done].
Qed.

(** X15: for an id of at least eight bytes [NewConsulConnection] gives a
    connection whose short id is the first eight bytes of the id, with
    nothing watched, an empty open outbound queue and no destroy signal; so
    the first shared watch of any key on a new connection is accepted and
    reaches its loop. *)
Theorem new_connection_is_fresh (connectionID : string) (regions services nodes : Payload)
    (Hlen : (8 <= String.length connectionID)%nat) :
  exists c,
    NewConsulConnection connectionID regions services nodes = Some c /\
    String.length (shortID c) = 8%nat /\
    String.prefix (shortID c) connectionID = true /\
    watches c = ∅ /\ send c = [] /\ sendClosed c = false /\ destroyCh c = false /\
    forall watchKey actionEvent initialPayload,
      watchGenericBroadcast watchKey actionEvent [] initialPayload c =
        (Value Running, broadcast_started watchKey actionEvent initialPayload c).
Proof.
  unfold NewConsulConnection.
  destruct (String.length connectionID <? 8)%nat eqn:Hlt.
  { apply Nat.ltb_lt in Hlt. lia. }
  eexists. split; [reflexivity|]. simpl.
  split; [by apply substring_0_length|]. split; [apply substring_0_prefix|].
  repeat (split; [done|]).
  intros watchKey actionEvent initialPayload.
  rewrite watchGenericBroadcast_unfold. simpl.
  rewrite bool_decide_eq_false_2; [done|]. apply not_elem_of_empty.
Qed.

Lemma new_connection_is_fresh_witness :
  exists c,
    NewConsulConnection "6ba7b810-9dad-11d1-80b4-00c04fd430c8" PNil PNil PNil = Some c /\
    String.length (shortID c) = 8%nat /\
    String.prefix (shortID c) "6ba7b810-9dad-11d1-80b4-00c04fd430c8" = true /\
    watches c = ∅ /\ send c = [] /\ sendClosed c = false /\ destroyCh c = false /\
    forall watchKey actionEvent initialPayload,
      watchGenericBroadcast watchKey actionEvent [] initialPayload c =
        (Value Running, broadcast_started watchKey actionEvent initialPayload c).
Proof.
  apply (new_connection_is_fresh "6ba7b810-9dad-11d1-80b4-00c04fd430c8" PNil PNil PNil).
  simpl. lia.
Defined.

(** ** Requests and their first reply *)

(** X16: a fetchConsulRegions request, whatever its payload and index, makes
    [process] start one goroutine; on an open outbound queue this goroutine
    puts exactly one action on the queue, of type fetchedConsulRegions with
    the region list of the hub and index 0, and returns; on a closed queue
    it panics, and nothing in it recovers. *)
Theorem fetch_regions_replies_once (action : Action) (c : ConsulConnection)
    (Hty : Type' action = ActionType.fetchConsulRegions) :
  process action c = (Value [GoFetchRegions], emit (processing_log c action) c) /\
  (forall prop ticks c1, sendClosed c1 = false ->
     go GoFetchRegions prop ticks c1 =
       (Value Returned,
        set_send (send c1 ++ [mkAction ActionType.fetchedConsulRegions (hubRegions c1) 0]) c1)) /\
  (forall prop ticks c1, sendClosed c1 = true ->
     go GoFetchRegions prop ticks c1 = (Panic SendOnClosedChannel, c1)).
Proof.
  split; [|split].
  - unfold process, processing_log. task_unfold. by rewrite Hty.
  - intros prop ticks c1 Hopen. simpl. unfold fetchRegions. task_unfold. by rewrite Hopen.
  - intros prop ticks c1 Hclosed. simpl. unfold fetchRegions. task_unfold. by rewrite Hclosed.
Qed.

Lemma fetch_regions_replies_once_witness :
  process (mkAction ActionType.fetchConsulRegions PNil 0) (fresh "c0ffee00") =
    (Value [GoFetchRegions],
     emit (processing_log (fresh "c0ffee00") (mkAction ActionType.fetchConsulRegions PNil 0))
          (fresh "c0ffee00")).
Proof.
  apply (proj1 (fetch_regions_replies_once (mkAction ActionType.fetchConsulRegions PNil 0)
                  (fresh "c0ffee00") eq_refl)).
Defined.

(** X17: a watchConsulServices (watchConsulNodes) request makes [process]
    start one shared watch on the key "services" ("nodes"), with the list
    the region holds at that moment as its snapshot.  When the key is not
    watched and the outbound queue is open, the first action this goroutine
    puts on the queue is that list, with type fetchedConsulServices
    (fetchedConsulNodes) and index 0, whatever the property publishes
    later. *)
Theorem shared_watch_request_replies_with_cached_list (action : Action)
    (c : ConsulConnection) (key fetchedType : string) (cached : Payload)
    (Hty : Type' action = ActionType.watchConsulServices /\ key = "services" /\
           fetchedType = ActionType.fetchedConsulServices /\ cached = regionServices c \/
           Type' action = ActionType.watchConsulNodes /\ key = "nodes" /\
           fetchedType = ActionType.fetchedConsulNodes /\ cached = regionNodes c)
    (Hnew : key ∉ watches c) (Hopen : sendClosed c = false) :
  exists g c1,
    process action c = (Value [g], c1) /\
    g = GoWatchGenericBroadcast key fetchedType cached /\
    forall prop ticks, exists rest,
      send (snd (go g prop ticks c1)) = send c ++ mkAction fetchedType cached 0 :: rest.
Proof.
  assert (Hgo : forall prop c1, watches c1 = watches c -> send c1 = send c ->
            sendClosed c1 = false ->
            exists rest,
              send (snd (watchGenericBroadcast key fetchedType prop cached c1)) =
                send c ++ mkAction fetchedType cached 0 :: rest).
  { intros prop c1 Hw Hs Hc.
    rewrite watchGenericBroadcast_unfold, bool_decide_eq_false_2, Hc by (by rewrite Hw).
    destruct (broadcast_loop_sent key fetchedType prop (broadcast_started key fetchedType cached c1))
      as [rest (Hrest & _ & _)].
    exists rest.
    destruct (broadcast_loop _ _ _ _) as [[[|]|v] c']; simpl in *;
      by rewrite Hrest, Hs, <- app_assoc. }
  destruct Hty as [(Hty & -> & -> & ->) | (Hty & -> & -> & ->)].
  - exists (GoWatchGenericBroadcast "services" ActionType.fetchedConsulServices (regionServices c)),
           (emit (processing_log c action) c).
    split; [unfold process, processing_log; task_unfold; by rewrite Hty|].
    split; [done|]. intros prop ticks. simpl. by apply Hgo.
  - exists (GoWatchGenericBroadcast "nodes" ActionType.fetchedConsulNodes (regionNodes c)),
           (emit (processing_log c action) c).
    split; [unfold process, processing_log; task_unfold; by rewrite Hty|].
    split; [done|]. intros prop ticks. simpl. by apply Hgo.
Qed.

Lemma shared_watch_request_replies_with_cached_list_witness :
  exists g c1,
    process (mkAction ActionType.watchConsulNodes PNil 0) (watching "c0ffee00" ["services"])
      = (Value [g], c1) /\
    g = GoWatchGenericBroadcast "nodes" ActionType.fetchedConsulNodes PNil /\
    forall prop ticks, exists rest,
      send (snd (go g prop ticks c1)) =
        send (watching "c0ffee00" ["services"]) ++
        mkAction ActionType.fetchedConsulNodes PNil 0 :: rest.
Proof.
  apply (shared_watch_request_replies_with_cached_list
           (mkAction ActionType.watchConsulNodes PNil 0) (watching "c0ffee00" ["services"])
           "nodes" ActionType.fetchedConsulNodes PNil).
  - right. repeat split.
  - vm_compute. discriminate.
  - reflexivity.
Defined.
